(** * Texture-support export scripts: a shallow embedding

    Two scripts of [assets/textures/texture_support/scripts] are modelled:

    - [export-exr-hdr.py]  (module [ExrHdr]): the tone mapper that turns an
      8-bit sRGB image into a boosted linear planar buffer;
    - [export-ldr-formats.py] (module [LdrFormats]): the loop that exports
      the source image to eleven raster formats.

    Arrays are nested lists in row-major order, exactly as numpy indexes
    them.  The [float32] samples of the tone mapper are modelled by real
    numbers: every operation of the script is read as the exact operation
    it rounds, so the statements below are about the ideal values of the
    samples, not about their last bits.  The two comparisons the script
    makes on samples ([<= 0.04045] and [== 1.0]) are also written in
    IEEE 754 binary32, and shown to decide as the real ones do on every
    8-bit input. *)

From Stdlib Require Import String Ascii List ZArith Reals Lra Lia Bool.
From Stdlib Require Import Floats.SpecFloat.
Import ListNotations.

(** ** Arrays *)

Module NdArray.

(** [a[i][j][k]] applied to every sample of a three-dimensional array. *)
Definition map3 {A B} (f : A -> B) (a : list (list (list A))) : list (list (list B)) :=
  map (map (map f)) a.

(** Three aligned sequences combined element by element. *)
Fixpoint zip_with3 {A B C D} (f : A -> B -> C -> D)
    (xs : list A) (ys : list B) (zs : list C) : list D :=
  match xs, ys, zs with
  | x :: xs', y :: ys', z :: zs' => f x y z :: zip_with3 f xs' ys' zs'
  | _, _, _ => []
  end.

Fixpoint zip_with {A B C} (f : A -> B -> C) (xs : list A) (ys : list B) : list C :=
  match xs, ys with
  | x :: xs', y :: ys' => f x y :: zip_with f xs' ys'
  | _, _ => []
  end.

Definition ndarray3 (A : Type) : Type := list (list (list A)).
Definition ndarray2 (A : Type) : Type := list (list A).

(** [a[i][j][k]], when the three indices are in range. *)
Definition get3 {A} (a : ndarray3 A) (i j k : nat) : option A :=
  match nth_error a i with
  | Some row =>
      match nth_error row j with
      | Some px => nth_error px k
      | None => None
      end
  | None => None
  end.

Definition get2 {A} (a : ndarray2 A) (i j : nat) : option A :=
  match nth_error a i with
  | Some row => nth_error row j
  | None => None
  end.

(** The array has shape [(d0, d1, d2)]: every row has [d1] entries and every
    entry has [d2] components. *)
Definition has_shape {A} (d0 d1 d2 : nat) (a : ndarray3 A) : Prop :=
  length a = d0 /\
  Forall (fun row => length row = d1 /\ Forall (fun px => length px = d2) row) a.

(** [a.shape] as numpy reports it for a rectangular array with at least one
    pixel. *)
Definition shape {A} (a : ndarray3 A) : nat * nat * nat :=
  (length a, length (hd [] a), length (hd [] (hd [] a))).

(** [np.where(cond, x, y)] on three arrays of one shape. *)
Definition np_where {A} (cond : ndarray3 bool) (x y : ndarray3 A) : ndarray3 A :=
  zip_with3 (zip_with3 (zip_with3 (fun (c : bool) u v => if c then u else v)))
            cond x y.

(** [np.all(a, axis=-1)]: the conjunction along the last axis. *)
Definition np_all_last (a : ndarray3 bool) : ndarray2 bool :=
  map (map (forallb (fun b => b))) a.

(** [a[mask] *= k] written with an arbitrary update [f] of the selected
    entries of the first two axes. *)
Definition update_masked {A} (f : A -> A) (a : ndarray3 A) (mask : ndarray2 bool)
  : ndarray3 A :=
  zip_with (zip_with (fun px (m : bool) => if m then map f px else px)) a mask.

(** [a.transpose(2, 0, 1)]: the result [t] has [t[k][i][j] = a[i][j][k]]
    and shape [(d2, d0, d1)] when [a] has shape [(d0, d1, d2)]. *)
Definition transpose_201 {A} (dflt : A) (a : ndarray3 A) : ndarray3 A :=
  let '(_, _, d2) := shape a in
  map (fun k => map (map (fun px => nth k px dflt)) a) (seq 0 d2).

End NdArray.

(** ** export-exr-hdr.py *)

Module ExrHdr.
Import NdArray.
Local Open Scope R_scope.

Definition Rleb (x y : R) : bool := if Rle_dec x y then true else false.
Definition Reqb (x y : R) : bool := if Req_dec_T x y then true else false.

(** [def srgb_to_linear(srgb)], on arrays as in the script: the three
    arguments of [np.where] are computed on the whole array, then selected
    sample by sample. *)
Definition srgb_to_linear (srgb : ndarray3 R) : ndarray3 R :=
  np_where (map3 (fun s => Rleb s 0.04045) srgb)
           (map3 (fun s => s / 12.92) srgb)
           (map3 (fun s => Rpower ((s + 0.055) / 1.055) 2.4) srgb).

(** The transfer function in the words of the specification (section 4.1,
    step 3), on one sample; [srgb_to_linear] is compared with it below. *)
Definition linear (s : R) : R :=
  if Rle_dec s 0.04045 then s / 12.92 else Rpower ((s + 0.055) / 1.055) 2.4.

(** [iio.imread(input_filename).astype(np.float32) / 255.0] *)
Definition normalize (img : ndarray3 Z) : ndarray3 R :=
  map3 (fun v => IZR v / 255.0) img.

(** [np.all(img_srgb == 1.0, axis=-1)] *)
Definition pure_white_mask (img_srgb : ndarray3 R) : ndarray2 bool :=
  np_all_last (map3 (fun s => Reqb s 1.0) img_srgb).

(** [img_linear[pure_white_mask] *= 10.0] *)
Definition boost (img_linear : ndarray3 R) (mask : ndarray2 bool) : ndarray3 R :=
  update_masked (fun v => v * 10.0) img_linear mask.

(** The normalisation of line 16 on the samples of one pixel. *)
Definition normalize_px (px : list Z) : list R := map (fun v => IZR v / 255.0) px.

(** The boosted pixel in the words of the specification (section 4.1,
    steps 2 to 4): a pixel whose samples all equal 1.0 has its linear
    values multiplied by 10.0, any other pixel keeps them. *)
Definition is_pure_white (px : list R) : bool := forallb (fun s => Reqb s 1.0) px.

Definition tone_pixel (px : list R) : list R :=
  if is_pure_white px then map (fun v => v * 10.0) (map linear px) else map linear px.

(** Lines 16 to 28 of the script: from the decoded 8-bit buffer to
    [img_exr]. *)
Definition tone_mapper (img : ndarray3 Z) : ndarray3 R :=
  let img_srgb := normalize img in
  let img_linear := srgb_to_linear img_srgb in
  let pure_white_mask := pure_white_mask img_srgb in
  let img_linear := boost img_linear pure_white_mask in
  transpose_201 0 img_linear.

(** *** The comparisons in binary32

    The samples the script compares are [float32] quotients of an 8-bit
    value by 255.0; the Python literals are doubles, converted to
    [float32] when they meet the array. *)

Definition f32_of_Z (v : Z) : spec_float := binary_normalize 24 128 v 0 false.
Definition f64_of_Z (v : Z) : spec_float := binary_normalize 53 1024 v 0 false.

Definition f32_of_f64 (x : spec_float) : spec_float :=
  match x with
  | S754_finite s m e => binary_normalize 24 128 (cond_Zopp s (Zpos m)) e s
  | _ => x
  end.

(** The double nearest to the decimal [num / den], for [num] and [den]
    below 2^53. *)
Definition f64_literal (num den : Z) : spec_float :=
  SFdiv 53 1024 (f64_of_Z num) (f64_of_Z den).

(** [img_srgb] at a sample of value [v]: [np.float32(v) / 255.0]. *)
Definition img_srgb32 (v : Z) : spec_float :=
  SFdiv 24 128 (f32_of_Z v) (f32_of_f64 (f64_literal 255 1)).

(** [srgb <= 0.04045] and [img_srgb == 1.0] at that sample. *)
Definition below_threshold32 (v : Z) : bool :=
  SFleb (img_srgb32 v) (f32_of_f64 (f64_literal 4045 100000)).

Definition is_one32 (v : Z) : bool :=
  SFeqb (img_srgb32 v) (f32_of_f64 (f64_literal 1 1)).

(** [srgb / 12.92] at that sample, the value [np.where] selects when the
    sample is below the threshold. *)
Definition low_branch32 (v : Z) : spec_float :=
  SFdiv 24 128 (img_srgb32 v) (f32_of_f64 (f64_literal 1292 100)).

(** *** The conversion around the threshold *)

(** [srgb_to_linear] applied to a buffer of one sample. *)
Definition converted (s : R) : option R :=
  get3 (srgb_to_linear [[[s]]]) 0 0 0.

(** The conversion is continuous at 0.04045 up to [tol]: samples close
    enough to the threshold are converted to within [tol] of the value at
    the threshold. *)
Definition continuous_at_threshold_within (tol : R) : Prop :=
  exists delta,
    0 < delta
    /\ forall s v v0,
        Rabs (s - 0.04045) < delta ->
        converted s = Some v ->
        converted 0.04045 = Some v0 ->
        Rabs (v - v0) <= tol.

(** The spacing of binary32 numbers between 2^-9 and 2^-8, where the
    value at the threshold lies. *)
Definition ulp32_at_threshold : R := / 2 ^ 32.

(** *** The script around the tone mapper (lines 14 to 40) *)

Definition input_filename : string := "png-srgb-rgb.png".
Definition output_exr_filename : string := "exr-hdr.exr".
Definition channels : list string := ["R"; "G"; "B"]%string.

(** What a file holds, at the level the codecs hand it over: a decoded
    8-bit image, or an EXR header with one row-major sample buffer per
    channel name. *)
Inductive file : Type :=
| PngFile (pixels : ndarray3 Z)
| ExrFile (width height : nat) (pixels : list (string * list R)).

Definition disk : Type := string -> option file.

Definition write (d : disk) (name : string) (f : file) : disk :=
  fun n => if String.eqb n name then Some f else d n.

(** [enumerate(l)] *)
Definition enumerate {A} (l : list A) : list (nat * A) :=
  combine (seq 0 (length l)) l.

(** [{ch: img_exr[i].astype(np.float32).tobytes() for i, ch in
    enumerate(channels)}]; [None] stands for the [IndexError] of a missing
    plane. *)
Fixpoint channel_buffers (img_exr : ndarray3 R) (ichs : list (nat * string))
  : option (list (string * list R)) :=
  match ichs with
  | [] => Some []
  | (i, ch) :: rest =>
      match nth_error img_exr i with
      | Some plane =>
          match channel_buffers img_exr rest with
          | Some bufs => Some ((ch, concat plane) :: bufs)
          | None => None
          end
      | None => None
      end
  end.

(** One run of the script on a disk: the disk afterwards and the line
    printed, or [None] when the run stops on an uncaught exception (no
    readable image under [input_filename], or fewer than three planes). *)
Definition script (d : disk) : option (disk * list string) :=
  match d input_filename with
  | Some (PngFile img) =>
      let img_exr := tone_mapper img in
      let '(_, height, width) := shape img_exr in
      match channel_buffers img_exr (enumerate channels) with
      | Some pixels =>
          Some (write d output_exr_filename (ExrFile width height pixels),
                [("Saved linear HDR image to " ++ output_exr_filename)%string])
      | None => None
      end
  | _ => None
  end.

(** The file the run leaves under the output name. *)
Definition exported (d : disk) : option file :=
  match script d with
  | Some (d', _) => d' output_exr_filename
  | None => None
  end.

(** Two disks used as examples: both hold the same two-pixel image under
    the input name and differ everywhere else. *)
Definition disk_a : disk :=
  fun n => if String.eqb n input_filename
           then Some (PngFile [[[255; 255; 255]]; [[255; 128; 0]]]%Z)
           else None.

Definition disk_b : disk :=
  fun n => if String.eqb n input_filename
           then Some (PngFile [[[255; 255; 255]]; [[255; 128; 0]]]%Z)
           else Some (ExrFile 0 0 []).

End ExrHdr.

(** ** export-ldr-formats.py *)

Module LdrFormats.
Import NdArray.
Local Open Scope Z_scope.
Local Open Scope string_scope.

(** *** Strings and paths *)

(** [str.upper] on ASCII letters. *)
Definition upper_char (c : ascii) : ascii :=
  let n := nat_of_ascii c in
  if ((97 <=? n)%nat && (n <=? 122)%nat)%bool then ascii_of_nat (n - 32) else c.

Fixpoint upper (s : string) : string :=
  match s with
  | EmptyString => EmptyString
  | String c s' => String (upper_char c) (upper s')
  end.

Fixpoint endswith_slash (s : string) : bool :=
  match s with
  | EmptyString => false
  | String c EmptyString => Ascii.eqb c "/"
  | String _ s' => endswith_slash s'
  end.

Definition startswith_slash (s : string) : bool :=
  match s with
  | String c _ => Ascii.eqb c "/"
  | EmptyString => false
  end.

(** [os.path.join(a, b)] of [posixpath], for two components. *)
Definition os_path_join (a b : string) : string :=
  if startswith_slash b then b
  else if (String.eqb a "" || endswith_slash a)%bool then a ++ b
  else a ++ "/" ++ b.

(** The text after the last dot of a file name, the empty string when
    there is no dot. *)
Fixpoint extension_from (seen_dot : bool) (acc s : string) : string :=
  match s with
  | EmptyString => if seen_dot then acc else ""
  | String c s' =>
      if Ascii.eqb c "."
      then extension_from true "" s'
      else extension_from seen_dot (acc ++ String c "") s'
  end.

Definition extension (filename : string) : string :=
  extension_from false "" filename.

(** *** Images *)

(** A decoded PIL image: its mode fixes the number of bands of every
    pixel. *)
Inductive image : Type :=
| ImageRGB (px : list (list (Z * Z * Z)))
| ImageRGBA (px : list (list (Z * Z * Z * Z))).

Inductive mode : Type := RGB | RGBA.

(** [img.convert(mode)]; an opaque alpha band is added, an alpha band is
    dropped. *)
Definition convert (m : mode) (img : image) : image :=
  match m, img with
  | RGB, ImageRGB px => ImageRGB px
  | RGB, ImageRGBA px => ImageRGB (map (map (fun '(r, g, b, _) => (r, g, b))) px)
  | RGBA, ImageRGB px => ImageRGBA (map (map (fun '(r, g, b) => (r, g, b, 255))) px)
  | RGBA, ImageRGBA px => ImageRGBA px
  end.

(** [np.array(img)]: height x width x bands. *)
Definition np_array (img : image) : ndarray3 Z :=
  match img with
  | ImageRGB px => map (map (fun '(r, g, b) => [r; g; b])) px
  | ImageRGBA px => map (map (fun '(r, g, b, a) => [r; g; b; a])) px
  end.

(** [a[..., idx]]: the last axis re-read at the listed indices.  The script
    applies it to the array of an RGB image, whose pixels have the three
    bands the indices name. *)
Definition index_last (idx : list nat) (a : ndarray3 Z) : ndarray3 Z :=
  map (map (fun px => map (fun k => nth k px 0) idx)) a.

(** *** The encoders *)

(** A request handed to an external encoder. *)
Inductive codec_call : Type :=
| QoiWrite (filename : string) (img_data : ndarray3 Z)
| IioImwrite (filename : string) (arr : ndarray3 Z) (extension : option string)
| PilSave (filename : string) (img : image) (format : string).

Definition call_filename (c : codec_call) : string :=
  match c with
  | QoiWrite f _ | IioImwrite f _ _ | PilSave f _ _ => f
  end.

(** A raised Python exception: whether it is an instance of [Exception]
    (the others are [KeyboardInterrupt], [SystemExit] and the like), and
    its [str]. *)
Record exn : Type := { is_Exception : bool; str : string }.

Inductive outcome : Type :=
| Returned
| Raised (e : exn).

(** What the loop does, in order. *)
Inductive event : Type :=
| Skipping (ext : string)
| Call (c : codec_call)
| Saved (output_filename : string)
| Failed (ext : string) (e : exn).

(** The line an event prints, if it prints. *)
Definition line (ev : event) : option string :=
  match ev with
  | Skipping ext => Some ("Skipping " ++ ext ++ " (unsupported format)")
  | Call _ => None
  | Saved output_filename => Some ("Saved: " ++ output_filename)
  | Failed ext e => Some ("Failed to save " ++ ext ++ ": " ++ str e)
  end.

Definition formats : list (string * option string) :=
  [ ("bmp", Some "bmp");
    ("dds", Some "dds");
    ("gif", Some "gif");
    ("ico", Some "ico");
    ("jpg", Some "jpeg");
    ("qoi", Some "qoi");
    ("tga", Some "tga");
    ("tif", Some "tiff");
    ("webp", Some "webp");
    ("pam", Some "pam");
    ("ppm", Some "ppm") ].

Definition output_dir : string := "./".

(** [os.path.join(output_dir, f"{ext}.{ext}")] *)
Definition output_filename_of (ext : string) : string :=
  os_path_join output_dir (ext ++ "." ++ ext).

Section ExportLoop.

(** The source image and the behaviour of the encoders on each request. *)
Variable img : image.
Variable codec : codec_call -> outcome.

Definition img_array : ndarray3 Z := np_array img.

(** The request the [try] block builds for one format (lines 42 to 61). *)
Definition request (fmt output_filename : string) : codec_call :=
  if fmt =? "qoi" then
    let img_rgba := convert RGBA img in
    let img_data := np_array img_rgba in
    QoiWrite output_filename img_data
  else if fmt =? "dds" then
    let img_rgba := convert RGB img in
    let img_array_rgba := np_array img_rgba in
    let img_bgra := index_last [2; 1; 0]%nat img_array_rgba in
    IioImwrite output_filename img_bgra (Some ".dds")
  else if fmt =? "pam" then
    IioImwrite output_filename img_array None
  else if fmt =? "ico" then
    let img_rgba := convert RGBA img in
    PilSave output_filename img_rgba "ICO"
  else
    PilSave output_filename img (upper fmt).

(** The loop of lines 34 to 65 over a list of [(ext, fmt)] items: the
    events in order, and the exception that ended the run when one escaped
    the [except Exception] clause. *)
Fixpoint export_loop (items : list (string * option string))
  : list event * option exn :=
  match items with
  | [] => ([], None)
  | (ext, None) :: rest =>
      let (evs, r) := export_loop rest in
      (Skipping ext :: evs, r)
  | (ext, Some fmt) :: rest =>
      let output_filename := output_filename_of ext in
      let c := request fmt output_filename in
      match codec c with
      | Returned =>
          let (evs, r) := export_loop rest in
          (Call c :: Saved output_filename :: evs, r)
      | Raised e =>
          if is_Exception e then
            let (evs, r) := export_loop rest in
            (Call c :: Failed ext e :: evs, r)
          else ([Call c], Some e)
      end
  end.

Definition run : list event * option exn := export_loop formats.

End ExportLoop.

(** The requests the loop is expected to make: one per item that names an
    encoder, in the order of the items. *)
Definition requests (img : image) (items : list (string * option string))
  : list codec_call :=
  flat_map (fun '(ext, fmt) =>
              match fmt with
              | Some fmt => [request img fmt (output_filename_of ext)]
              | None => []
              end) items.

(** The encoders raise nothing outside of [Exception]. *)
Definition raises_only_Exception (codec : codec_call -> outcome) : Prop :=
  forall c e, codec c = Raised e -> is_Exception e = true.

(** An example image of one row and two pixels, and encoders of which the
    GIF one fails. *)
Definition example_img : image := ImageRGB [[(255, 0, 0); (1, 2, 3)]].

Definition gif_fails (c : codec_call) : outcome :=
  match c with
  | PilSave _ _ format =>
      if format =? "GIF"
      then Raised {| is_Exception := true; str := "cannot write mode RGB as GIF" |}
      else Returned
  | _ => Returned
  end.

(** The line the loop is expected to print for one item. *)
Definition item_line (img : image) (codec : codec_call -> outcome)
    (item : string * option string) : string :=
  match item with
  | (ext, None) => "Skipping " ++ ext ++ " (unsupported format)"
  | (ext, Some fmt) =>
      match codec (request img fmt (output_filename_of ext)) with
      | Returned => "Saved: " ++ output_filename_of ext
      | Raised e => "Failed to save " ++ ext ++ ": " ++ str e
      end
  end.

(** The exceptions raised for the items of a list are instances of
    [Exception]. *)
Definition caught_on (img : image) (codec : codec_call -> outcome)
    (items : list (string * option string)) : Prop :=
  forall ext fmt e,
    In (ext, Some fmt) items ->
    codec (request img fmt (output_filename_of ext)) = Raised e ->
    is_Exception e = true.

(** Encoders of which the GIF one is interrupted from the keyboard. *)
Definition gif_interrupted (c : codec_call) : outcome :=
  match c with
  | PilSave _ _ format =>
      if format =? "GIF"
      then Raised {| is_Exception := false; str := "" |}
      else Returned
  | _ => Returned
  end.

(** Whether a character occurs in a string. *)
Fixpoint contains (c : ascii) (s : string) : bool :=
  match s with
  | EmptyString => false
  | String c' s' => (Ascii.eqb c' c || contains c s')%bool
  end.

(** The requests among the events, and the lines printed. *)
Fixpoint calls (evs : list event) : list codec_call :=
  match evs with
  | [] => []
  | Call c :: evs' => c :: calls evs'
  | _ :: evs' => calls evs'
  end.

Fixpoint stdout (evs : list event) : list string :=
  match evs with
  | [] => []
  | ev :: evs' =>
      match line ev with
      | Some l => l :: stdout evs'
      | None => stdout evs'
      end
  end.

End LdrFormats.

(** * Properties *)

(** ** Arrays *)

Module NdArrayFacts.
Import NdArray.

Lemma zip_with3_map {X A B C D} (F : A -> B -> C -> D)
    (f : X -> A) (g : X -> B) (h : X -> C) (l : list X) :
  zip_with3 F (map f l) (map g l) (map h l) = map (fun x => F (f x) (g x) (h x)) l.
Proof.
  induction l as [|x l IH]; simpl; [reflexivity|].
  now rewrite IH.
Qed.

Lemma zip_with_map {X A B C} (F : A -> B -> C) (f : X -> A) (g : X -> B) (l : list X) :
  zip_with F (map f l) (map g l) = map (fun x => F (f x) (g x)) l.
Proof.
  induction l as [|x l IH]; simpl; [reflexivity|].
  now rewrite IH.
Qed.

(** [np.where] on three arrays computed from one array is a map. *)
Lemma np_where_map3 {X A} (c : X -> bool) (f g : X -> A) (a : ndarray3 X) :
  np_where (map3 c a) (map3 f a) (map3 g a)
  = map3 (fun x => if c x then f x else g x) a.
Proof.
  unfold np_where, map3.
  rewrite zip_with3_map.
  apply map_ext; intros row.
  rewrite zip_with3_map.
  apply map_ext; intros px.
  now rewrite zip_with3_map.
Qed.

(** The masked update with a mask computed from the same array is a map
    over the pixels. *)
Lemma update_masked_map {X A} (u : A -> A) (f : list X -> list A)
    (m : list X -> bool) (a : ndarray3 X) :
  update_masked u (map (map f) a) (map (map m) a)
  = map (map (fun px => if m px then map u (f px) else f px)) a.
Proof.
  unfold update_masked.
  rewrite zip_with_map.
  apply map_ext; intros row.
  now rewrite zip_with_map.
Qed.

Lemma get2_map {A B} (f : A -> B) (a : ndarray2 A) i j :
  get2 (map (map f) a) i j = option_map f (get2 a i j).
Proof.
  unfold get2.
  rewrite nth_error_map.
  destruct (nth_error a i) as [row|]; simpl; [|reflexivity].
  apply nth_error_map.
Qed.

Lemma get3_get2 {A} (a : ndarray3 A) i j k :
  get3 a i j k = match get2 a i j with Some px => nth_error px k | None => None end.
Proof.
  unfold get3, get2.
  now destruct (nth_error a i).
Qed.

Lemma get3_map3 {A B} (f : A -> B) (a : ndarray3 A) i j k :
  get3 (map3 f a) i j k = option_map f (get3 a i j k).
Proof.
  rewrite !get3_get2.
  unfold map3.
  rewrite get2_map.
  destruct (get2 a i j) as [px|]; simpl; [|reflexivity].
  apply nth_error_map.
Qed.

Lemma nth_error_seq0 n k :
  nth_error (seq 0 n) k = if k <? n then Some k else None.
Proof.
  destruct (Nat.ltb_spec k n) as [Hlt|Hge].
  - rewrite nth_error_nth' with (d := 0%nat) by now rewrite length_seq.
    now rewrite seq_nth.
  - apply nth_error_None. now rewrite length_seq.
Qed.

(** Reading the transposed array: [t[k][i][j] = a[i][j][k]]. *)
Lemma get3_transpose_201 {A} (d : A) (a : ndarray3 A) k i j :
  get3 (transpose_201 d a) k i j
  = if k <? snd (shape a)
    then option_map (fun px => nth k px d) (get2 a i j)
    else None.
Proof.
  unfold transpose_201, shape at 1; simpl.
  unfold get3 at 1.
  rewrite nth_error_map, nth_error_seq0.
  destruct (k <? _); simpl; [|reflexivity].
  change (get2 (map (map (fun px => nth k px d)) a) i j
          = option_map (fun px => nth k px d) (get2 a i j)).
  apply get2_map.
Qed.

Lemma shape_of_has_shape {A} (a : ndarray3 A) d0 d1 d2 :
  has_shape d0 d1 d2 a -> (0 < d0)%nat -> (0 < d1)%nat -> shape a = (d0, d1, d2).
Proof.
  intros [Hlen Hrows] H0 H1.
  unfold shape.
  destruct a as [|row a]; simpl in *; [lia|].
  inversion Hrows as [|? ? [Hrow Hpx] _]; subst.
  destruct row as [|px row]; simpl in *; [lia|].
  inversion Hpx; subst.
  reflexivity.
Qed.

Lemma has_shape_map_px {A B} (f : list A -> list B) (a : ndarray3 A) d0 d1 d2 d2' :
  (forall px, length px = d2 -> length (f px) = d2') ->
  has_shape d0 d1 d2 a -> has_shape d0 d1 d2' (map (map f) a).
Proof.
  intros Hf [Hlen Hrows].
  split; [now rewrite length_map|].
  apply Forall_map.
  eapply Forall_impl; [|exact Hrows].
  intros row [Hrow Hpx]; simpl.
  split; [now rewrite length_map|].
  apply Forall_map.
  eapply Forall_impl; [|exact Hpx].
  intros px Hl. now apply Hf.
Qed.

Lemma has_shape_transpose_201 {A} (d : A) (a : ndarray3 A) d0 d1 d2 :
  has_shape d0 d1 d2 a -> (0 < d0)%nat -> (0 < d1)%nat ->
  has_shape d2 d0 d1 (transpose_201 d a).
Proof.
  intros Hs H0 H1.
  unfold transpose_201.
  rewrite (shape_of_has_shape _ _ _ _ Hs H0 H1).
  destruct Hs as [Hlen Hrows].
  split; [now rewrite length_map, length_seq|].
  apply Forall_map, Forall_forall.
  intros k _.
  split; [now rewrite length_map|].
  apply Forall_map.
  eapply Forall_impl; [|exact Hrows].
  intros row [Hrow _]; simpl.
  now rewrite length_map.
Qed.

Lemma has_shape_get2 {A} (a : ndarray3 A) d0 d1 d2 i j px :
  has_shape d0 d1 d2 a -> get2 a i j = Some px ->
  (i < d0)%nat /\ (j < d1)%nat /\ length px = d2.
Proof.
  intros [Hlen Hrows] Hget.
  unfold get2 in Hget.
  destruct (nth_error a i) as [row|] eqn:Hrow; [|discriminate].
  pose proof (nth_error_In _ _ Hrow) as Hin.
  rewrite Forall_forall in Hrows.
  destruct (Hrows _ Hin) as [Hl Hpx].
  rewrite Forall_forall in Hpx.
  repeat split.
  - rewrite <- Hlen. apply nth_error_Some. now rewrite Hrow.
  - rewrite <- Hl. apply nth_error_Some. now rewrite Hget.
  - apply Hpx. eapply nth_error_In; eassumption.
Qed.

Lemma has_shape_get2_in_range {A} (a : ndarray3 A) d0 d1 d2 i j :
  has_shape d0 d1 d2 a -> (i < d0)%nat -> (j < d1)%nat ->
  exists px, get2 a i j = Some px.
Proof.
  intros [Hlen Hrows] Hi Hj.
  unfold get2.
  destruct (nth_error a i) as [row|] eqn:Hrow.
  - pose proof (nth_error_In _ _ Hrow) as Hin.
    rewrite Forall_forall in Hrows.
    destruct (Hrows _ Hin) as [Hl _].
    destruct (nth_error row j) as [px|] eqn:Hpx; [now exists px|].
    apply nth_error_None in Hpx. lia.
  - apply nth_error_None in Hrow. lia.
Qed.

End NdArrayFacts.

(** ** The tone mapper *)

Module ExrHdrProofs.
Import NdArray NdArrayFacts ExrHdr.
Local Open Scope R_scope.

(** *** The transfer function on one sample *)

Lemma Rleb_true x y : Rleb x y = true <-> x <= y.
Proof. unfold Rleb. destruct (Rle_dec x y); split; (discriminate || tauto). Qed.

Lemma Reqb_true x y : Reqb x y = true <-> x = y.
Proof. unfold Reqb. destruct (Req_dec_T x y); split; (discriminate || tauto). Qed.

Lemma linear_low s : s <= 0.04045 -> linear s = s / 12.92.
Proof. intros H. unfold linear. destruct (Rle_dec s 0.04045); [reflexivity|contradiction]. Qed.

Lemma linear_high s :
  0.04045 < s -> linear s = Rpower ((s + 0.055) / 1.055) 2.4.
Proof. intros H. unfold linear. destruct (Rle_dec s 0.04045); [lra|reflexivity]. Qed.

Lemma Rpower_one y : Rpower 1 y = 1.
Proof. unfold Rpower. now rewrite ln_1, Rmult_0_r, exp_0. Qed.

Lemma linear_1 : linear 1.0 = 1.0.
Proof.
  rewrite linear_high by lra.
  replace ((1.0 + 0.055) / 1.055) with 1 by lra.
  rewrite Rpower_one. lra.
Qed.

Lemma linear_0 : linear 0 = 0.
Proof. rewrite linear_low by lra. lra. Qed.

(** The exponent 2.4 is 12/5: the fifth power of the result is the
    twelfth power of the base. *)
Lemma Rpower_12_5 x : 0 < x -> (Rpower x 2.4) ^ 5 = x ^ 12.
Proof.
  intros Hx.
  rewrite <- (Rpower_pow 5) by apply exp_pos.
  rewrite Rpower_mult.
  replace (2.4 * INR 5) with (INR 12) by (simpl; lra).
  now apply Rpower_pow.
Qed.

Lemma pow5_lt_inv a b : 0 <= a -> 0 <= b -> a ^ 5 < b ^ 5 -> a < b.
Proof.
  intros Ha Hb H.
  destruct (Rlt_le_dec a b) as [|Hle]; [assumption|].
  exfalso.
  assert (b ^ 5 <= a ^ 5) by (apply pow_incr; lra).
  lra.
Qed.

(** The value of the power branch at the threshold, to ten digits. *)
Lemma power_branch_at_threshold :
  0.04045 / 12.92 + 2.3e-9 < Rpower ((0.04045 + 0.055) / 1.055) 2.4
  /\ Rpower ((0.04045 + 0.055) / 1.055) 2.4 < 0.04045 / 12.92 + 2.4e-9.
Proof.
  assert (Hpos : 0 < Rpower ((0.04045 + 0.055) / 1.055) 2.4) by apply exp_pos.
  assert (Hp : Rpower ((0.04045 + 0.055) / 1.055) 2.4 ^ 5
               = ((0.04045 + 0.055) / 1.055) ^ 12) by (apply Rpower_12_5; lra).
  split; apply pow5_lt_inv; try lra; rewrite Hp; lra.
Qed.

Lemma Rpower_le_base a b c : 0 < c -> 0 < a -> a <= b -> Rpower a c <= Rpower b c.
Proof.
  intros Hc Ha [Hlt | ->]; [|apply Rle_refl].
  apply Rlt_le, Rlt_Rpower_l; lra.
Qed.

Lemma linear_nonneg s : 0 <= s -> 0 <= linear s.
Proof.
  intros Hs. unfold linear.
  destruct (Rle_dec s 0.04045); [lra|].
  apply Rlt_le, exp_pos.
Qed.

Lemma linear_le_1 s : 0 <= s <= 1 -> linear s <= 1.
Proof.
  intros Hs. unfold linear.
  destruct (Rle_dec s 0.04045); [lra|].
  rewrite <- (Rpower_one 2.4).
  apply Rpower_le_base; lra.
Qed.

Lemma linear_monotone s1 s2 : s1 <= s2 -> linear s1 <= linear s2.
Proof.
  intros Hle. unfold linear.
  destruct (Rle_dec s1 0.04045) as [L1|L1], (Rle_dec s2 0.04045) as [L2|L2].
  - lra.
  - apply Rle_trans with (Rpower ((0.04045 + 0.055) / 1.055) 2.4).
    + pose proof power_branch_at_threshold. lra.
    + apply Rpower_le_base; lra.
  - lra.
  - apply Rpower_le_base; lra.
Qed.

(** *** The comparisons on 8-bit inputs *)

Lemma comparisons32_table :
  forallb (fun n => let v := Z.of_nat n in
                    Bool.eqb (below_threshold32 v) (v <=? 10)%Z
                    && Bool.eqb (is_one32 v) (v =? 255)%Z)
          (seq 0 256) = true.
Proof. vm_compute. reflexivity. Qed.

Lemma comparisons32 v :
  (0 <= v <= 255)%Z ->
  below_threshold32 v = (v <=? 10)%Z /\ is_one32 v = (v =? 255)%Z.
Proof.
  intros Hv.
  pose proof comparisons32_table as H.
  rewrite forallb_forall in H.
  specialize (H (Z.to_nat v)).
  rewrite Z2Nat.id in H by lia.
  assert (Hin : In (Z.to_nat v) (seq 0 256)) by (apply in_seq; lia).
  apply H in Hin.
  apply andb_prop in Hin as [H1 H2].
  split; now apply Bool.eqb_prop.
Qed.

(** On an 8-bit input the comparisons of the script, made in binary32,
    decide as the comparisons of the real quotients do. *)
Lemma comparisons32_real v :
  (0 <= v <= 255)%Z ->
  below_threshold32 v = Rleb (IZR v / 255.0) 0.04045
  /\ is_one32 v = Reqb (IZR v / 255.0) 1.0.
Proof.
  intros Hv.
  destruct (comparisons32 v Hv) as [-> ->].
  split.
  - destruct (Z.leb_spec v 10) as [Hle|Hgt].
    + symmetry. apply Rleb_true.
      apply IZR_le in Hle. lra.
    + destruct (Rleb _ _) eqn:E; [|reflexivity].
      apply Rleb_true in E.
      assert (Hge : (11 <= v)%Z) by lia.
      apply IZR_le in Hge. lra.
  - destruct (Z.eqb_spec v 255) as [->|Hne].
    + symmetry. apply Reqb_true. lra.
    + destruct (Reqb _ _) eqn:E; [|reflexivity].
      apply Reqb_true in E.
      exfalso. apply Hne. apply eq_IZR. lra.
Qed.

(** *** From arrays to samples and pixels *)

Lemma srgb_to_linear_map3 srgb : srgb_to_linear srgb = map3 linear srgb.
Proof.
  unfold srgb_to_linear.
  rewrite np_where_map3.
  unfold map3.
  do 3 (apply map_ext; intros ?).
  unfold linear, Rleb.
  now destruct (Rle_dec _ _).
Qed.

Lemma pure_white_mask_map img_srgb :
  pure_white_mask img_srgb = map (map is_pure_white) img_srgb.
Proof.
  unfold pure_white_mask, np_all_last, map3.
  rewrite map_map.
  apply map_ext; intros row.
  rewrite map_map.
  apply map_ext; intros px.
  unfold is_pure_white.
  induction px as [|s px IH]; simpl; [reflexivity|].
  now rewrite IH.
Qed.

Lemma boost_tone_pixel img_srgb :
  boost (srgb_to_linear img_srgb) (pure_white_mask img_srgb)
  = map (map tone_pixel) img_srgb.
Proof.
  unfold boost.
  rewrite srgb_to_linear_map3, pure_white_mask_map.
  unfold map3.
  apply (update_masked_map (fun v => v * 10.0) (map linear) is_pure_white).
Qed.

Lemma tone_mapper_pixels img :
  tone_mapper img
  = transpose_201 0 (map (map (fun px => tone_pixel (normalize_px px))) img).
Proof.
  unfold tone_mapper.
  rewrite boost_tone_pixel.
  unfold normalize, map3.
  rewrite map_map.
  f_equal.
  apply map_ext; intros row.
  now rewrite map_map.
Qed.

Lemma length_tone_pixel px : length (tone_pixel px) = length px.
Proof.
  unfold tone_pixel.
  destruct (is_pure_white px); now rewrite ?length_map.
Qed.

Lemma has_shape_toned img h w c :
  has_shape h w c img ->
  has_shape h w c (map (map (fun px => tone_pixel (normalize_px px))) img).
Proof.
  apply has_shape_map_px.
  intros px Hpx.
  unfold normalize_px.
  now rewrite length_tone_pixel, length_map.
Qed.

(** Reading the output of the tone mapper at plane [k], row [i], column
    [j] of an image of shape [(h, w, c)]. *)
Lemma get3_tone_mapper img h w c k i j :
  has_shape h w c img -> (0 < h)%nat -> (0 < w)%nat ->
  get3 (tone_mapper img) k i j
  = if (k <? c)%nat
    then option_map (fun px => nth k (tone_pixel (normalize_px px)) 0) (get2 img i j)
    else None.
Proof.
  intros Hs Hh Hw.
  rewrite tone_mapper_pixels, get3_transpose_201.
  rewrite (shape_of_has_shape _ _ _ _ (has_shape_toned _ _ _ _ Hs) Hh Hw); simpl.
  destruct (k <? c)%nat; [|reflexivity].
  rewrite get2_map.
  now destruct (get2 img i j).
Qed.

Lemma is_pure_white_Forall px :
  is_pure_white px = true <-> Forall (fun s => s = 1.0) px.
Proof.
  unfold is_pure_white.
  rewrite forallb_forall, Forall_forall.
  split; intros H s Hin; apply Reqb_true; auto.
Qed.

Lemma Forall_normalize_px (P : R -> Prop) px :
  Forall P (normalize_px px) <-> Forall (fun v => P (IZR v / 255.0)) px.
Proof. unfold normalize_px. apply Forall_map. Qed.

Lemma nth_tone_pixel_white px k :
  is_pure_white px = true -> (k < length px)%nat ->
  nth k (tone_pixel px) 0 = 10.0 * linear 1.0.
Proof.
  intros Hw Hk.
  unfold tone_pixel. rewrite Hw.
  apply nth_error_nth.
  rewrite !nth_error_map.
  destruct (nth_error px k) as [s|] eqn:Hs; [|apply nth_error_None in Hs; lia].
  apply is_pure_white_Forall in Hw.
  rewrite Forall_forall in Hw.
  rewrite (Hw s) by (eapply nth_error_In; eassumption).
  simpl. f_equal. lra.
Qed.

Lemma nth_tone_pixel_other px k s :
  is_pure_white px = false -> nth_error px k = Some s ->
  nth k (tone_pixel px) 0 = linear s.
Proof.
  intros Hw Hk.
  unfold tone_pixel. rewrite Hw.
  apply nth_error_nth.
  now rewrite nth_error_map, Hk.
Qed.

(** *** The transfer function on arrays *)

(** C1. Every sample [s] of the buffer is converted on its own:
    [srgb_to_linear] puts [s / 12.92] at its place when [s <= 0.04045] and
    [((s + 0.055) / 1.055) ^ 2.4] otherwise; no mask takes part. *)
Theorem srgb_to_linear_elementwise (srgb : ndarray3 R) (i j k : nat) (s : R) :
  get3 srgb i j k = Some s ->
  (s <= 0.04045 -> get3 (srgb_to_linear srgb) i j k = Some (s / 12.92))
  /\ (0.04045 < s ->
      get3 (srgb_to_linear srgb) i j k = Some (Rpower ((s + 0.055) / 1.055) 2.4)).
Proof.
  intros Hs.
  rewrite srgb_to_linear_map3, get3_map3, Hs; simpl.
  split; intros H.
  - now rewrite linear_low.
  - now rewrite linear_high.
Qed.

Lemma srgb_to_linear_elementwise_witness :
  get3 (srgb_to_linear [[[0.5; 0.01; 1.0]]]) 0 0 1 = Some (0.01 / 12.92)
  /\ get3 (srgb_to_linear [[[0.5; 0.01; 1.0]]]) 0 0 0
     = Some (Rpower ((0.5 + 0.055) / 1.055) 2.4).
Proof.
  split.
  - apply (proj1 (srgb_to_linear_elementwise [[[0.5; 0.01; 1.0]]] 0 0 1 0.01 eq_refl)).
    lra.
  - apply (proj2 (srgb_to_linear_elementwise [[[0.5; 0.01; 1.0]]] 0 0 0 0.5 eq_refl)).
    lra.
Defined.

(** The conversion keeps the shape: a place outside the input is outside
    the output. *)
Lemma srgb_to_linear_outside (srgb : ndarray3 R) (i j k : nat) :
  get3 srgb i j k = None -> get3 (srgb_to_linear srgb) i j k = None.
Proof.
  intros H. now rewrite srgb_to_linear_map3, get3_map3, H.
Qed.

(** C9. The conversion is monotone on [0, 1]: of two samples of a buffer,
    the larger one is converted to the larger value. *)
Theorem srgb_to_linear_monotone (srgb : ndarray3 R) (i j k i' j' k' : nat) (s1 s2 : R) :
  get3 srgb i j k = Some s1 ->
  get3 srgb i' j' k' = Some s2 ->
  0 <= s1 -> s1 <= s2 -> s2 <= 1 ->
  exists v1 v2,
    get3 (srgb_to_linear srgb) i j k = Some v1
    /\ get3 (srgb_to_linear srgb) i' j' k' = Some v2
    /\ v1 <= v2.
Proof.
  intros H1 H2 _ Hle _.
  exists (linear s1), (linear s2).
  rewrite srgb_to_linear_map3, !get3_map3, H1, H2; simpl.
  repeat split.
  now apply linear_monotone.
Qed.

Lemma srgb_to_linear_monotone_witness :
  exists v1 v2,
    get3 (srgb_to_linear [[[0.04045; 0.0405]]]) 0 0 0 = Some v1
    /\ get3 (srgb_to_linear [[[0.04045; 0.0405]]]) 0 0 1 = Some v2
    /\ v1 <= v2.
Proof.
  apply (srgb_to_linear_monotone [[[0.04045; 0.0405]]] 0 0 0 0 0 1 0.04045 0.0405
           eq_refl eq_refl); lra.
Defined.

(** The value at the threshold lies between 2^-9 and 2^-8. *)
Lemma threshold_value_binade :
  / 2 ^ 9 <= linear 0.04045 /\ linear 0.04045 < / 2 ^ 8.
Proof. rewrite linear_low by lra. split; lra. Qed.

Lemma converted_linear s : converted s = Some (linear s).
Proof. unfold converted. now rewrite srgb_to_linear_map3. Qed.

(** Just above the threshold the conversion is already more than 2.3e-9
    above its value at the threshold... *)
Lemma linear_jump_lower s :
  0.04045 < s -> linear 0.04045 + 2.3e-9 < linear s.
Proof.
  intros Hs.
  rewrite (linear_low 0.04045) by lra.
  rewrite (linear_high s) by assumption.
  apply Rlt_le_trans with (Rpower ((0.04045 + 0.055) / 1.055) 2.4).
  - apply power_branch_at_threshold.
  - apply Rpower_le_base; lra.
Qed.

(** ... and within 1e-10 of the threshold it is less than 2.4e-9 above. *)
Lemma linear_jump_upper s :
  0.04045 < s -> s <= 0.04045 + 1e-10 -> linear s < linear 0.04045 + 2.4e-9.
Proof.
  intros Hlo Hhi.
  rewrite (linear_low 0.04045) by lra.
  rewrite (linear_high s) by assumption.
  apply Rle_lt_trans with (Rpower ((0.04045 + 1e-10 + 0.055) / 1.055) 2.4).
  - apply Rpower_le_base; lra.
  - assert (Hp : Rpower ((0.04045 + 1e-10 + 0.055) / 1.055) 2.4 ^ 5
                 = ((0.04045 + 1e-10 + 0.055) / 1.055) ^ 12)
      by (apply Rpower_12_5; lra).
    apply pow5_lt_inv; [apply Rlt_le, exp_pos|lra|].
    rewrite Hp. lra.
Qed.

Lemma not_continuous_within tol :
  tol <= 2.3e-9 -> ~ continuous_at_threshold_within tol.
Proof.
  intros Htol (delta & Hdelta & Hcont).
  assert (Hnear : Rabs (0.04045 + delta / 2 - 0.04045) < delta).
  { apply Rabs_def1; lra. }
  specialize (Hcont (0.04045 + delta / 2) _ _ Hnear
                (converted_linear _) (converted_linear _)).
  pose proof (linear_jump_lower (0.04045 + delta / 2) ltac:(lra)) as Hjump.
  pose proof (Rle_abs (linear (0.04045 + delta / 2) - linear 0.04045)).
  lra.
Qed.

(** The counterexample to C6 as stated: the conversion is not continuous
    at 0.04045 up to nine spacings of binary32 at the value there; however
    close to the threshold, a sample above it is converted to more than
    nine such spacings above the value at the threshold. *)
Lemma srgb_to_linear_boundary_not_within_rounding :
  ~ continuous_at_threshold_within (9 * ulp32_at_threshold).
Proof.
  apply not_continuous_within.
  unfold ulp32_at_threshold. lra.
Qed.

(** C6, amended. At the threshold the conversion takes the value of the
    linear branch and jumps upwards just above it: it is continuous there
    up to 2.4e-9 (less than eleven spacings of binary32, less than a
    millionth of the value) and not up to 2.3e-9. *)
Theorem srgb_to_linear_boundary_jump :
  converted 0.04045 = Some (0.04045 / 12.92)
  /\ continuous_at_threshold_within 2.4e-9
  /\ ~ continuous_at_threshold_within 2.3e-9
  /\ 2.4e-9 < 11 * ulp32_at_threshold
  /\ 2.4e-9 < 1e-6 * (0.04045 / 12.92).
Proof.
  split; [rewrite converted_linear; now rewrite linear_low by lra|].
  split.
  - exists 1e-10. split; [lra|].
    intros s v v0 Hnear Hv Hv0.
    rewrite converted_linear in Hv, Hv0.
    injection Hv as <-. injection Hv0 as <-.
    apply Rabs_def2 in Hnear as [Hup Hdown].
    destruct (Rle_dec s 0.04045) as [Hle|Hgt].
    + rewrite (linear_low s), (linear_low 0.04045) by lra.
      apply Rabs_le. split; lra.
    + pose proof (linear_jump_lower s ltac:(lra)).
      pose proof (linear_jump_upper s ltac:(lra) ltac:(lra)).
      apply Rabs_le. split; lra.
  - split; [apply not_continuous_within; lra|].
    unfold ulp32_at_threshold. split; lra.
Qed.

(** *** The tone mapper *)

Lemma has_shape_tone_mapper (img : ndarray3 Z) (h w c : nat) :
  has_shape h w c img -> (0 < h)%nat -> (0 < w)%nat ->
  has_shape c h w (tone_mapper img).
Proof.
  intros Hs Hh Hw.
  rewrite tone_mapper_pixels.
  apply has_shape_transpose_201; try assumption.
  now apply has_shape_toned.
Qed.

(** C3. An input of shape [(height, width, 3)] gives an output of shape
    [(3, height, width)]: three planes of [height] rows of [width]
    samples. *)
Theorem tone_mapper_shape (img : ndarray3 Z) (height width : nat) :
  has_shape height width 3 img -> (0 < height)%nat -> (0 < width)%nat ->
  has_shape 3 height width (tone_mapper img)
  /\ shape (tone_mapper img) = (3, height, width)%nat.
Proof.
  intros Hs Hh Hw.
  pose proof (has_shape_tone_mapper _ _ _ _ Hs Hh Hw) as Hout.
  split; [exact Hout|].
  apply shape_of_has_shape; [exact Hout|lia|exact Hh].
Qed.

Lemma has_shape_example :
  has_shape 2 1 3 [[[255; 255; 255]]; [[255; 128; 0]]]%Z.
Proof. split; [reflexivity|]. repeat constructor. Qed.

Lemma tone_mapper_shape_witness :
  has_shape 3 2 1 (tone_mapper [[[255; 255; 255]]; [[255; 128; 0]]]%Z)
  /\ shape (tone_mapper [[[255; 255; 255]]; [[255; 128; 0]]]%Z) = (3, 2, 1)%nat.
Proof.
  apply (tone_mapper_shape _ 2 1 has_shape_example); lia.
Defined.

(** C2. A pixel whose three normalized samples all equal 1.0 comes out as
    10.0 times the conversion of 1.0 in each plane; any other pixel comes
    out as the plain conversion of each of its samples, which is the value
    [srgb_to_linear] computed before the boost. *)
Theorem tone_mapper_boosts_pure_white
    (img : ndarray3 Z) (height width i j : nat) (px : list Z) :
  has_shape height width 3 img -> (0 < height)%nat -> (0 < width)%nat ->
  get2 img i j = Some px ->
  (Forall (fun v => IZR v / 255.0 = 1.0) px ->
     forall k, (k < 3)%nat ->
       get3 (tone_mapper img) k i j = Some (10.0 * linear 1.0))
  /\ (~ Forall (fun v => IZR v / 255.0 = 1.0) px ->
     forall k v, nth_error px k = Some v ->
       get3 (tone_mapper img) k i j = Some (linear (IZR v / 255.0))
       /\ get3 (tone_mapper img) k i j = get3 (srgb_to_linear (normalize img)) i j k).
Proof.
  intros Hs Hh Hw Hpx.
  destruct (has_shape_get2 _ _ _ _ _ _ _ Hs Hpx) as (_ & _ & Hlen).
  split.
  - intros Hall k Hk.
    rewrite (get3_tone_mapper _ _ _ _ _ _ _ Hs Hh Hw), Hpx.
    apply Nat.ltb_lt in Hk. rewrite Hk. simpl. f_equal.
    apply nth_tone_pixel_white.
    + apply is_pure_white_Forall.
      apply (proj2 (Forall_normalize_px (fun s => s = 1.0) px)), Hall.
    + unfold normalize_px. rewrite length_map, Hlen. now apply Nat.ltb_lt.
  - intros Hnot k v Hv.
    assert (Hk : (k < 3)%nat).
    { rewrite <- Hlen. apply nth_error_Some. now rewrite Hv. }
    assert (Hout : get3 (tone_mapper img) k i j = Some (linear (IZR v / 255.0))).
    { rewrite (get3_tone_mapper _ _ _ _ _ _ _ Hs Hh Hw), Hpx.
      apply Nat.ltb_lt in Hk. rewrite Hk. simpl. f_equal.
      apply nth_tone_pixel_other.
      - destruct (is_pure_white (normalize_px px)) eqn:E; [|reflexivity].
        exfalso. apply Hnot.
        apply (proj1 (Forall_normalize_px (fun s => s = 1.0) px)).
        now apply is_pure_white_Forall.
      - unfold normalize_px. now rewrite nth_error_map, Hv. }
    split; [exact Hout|].
    rewrite Hout, srgb_to_linear_map3.
    unfold normalize. rewrite !get3_map3, get3_get2, Hpx, Hv.
    reflexivity.
Qed.

Lemma tone_mapper_boosts_pure_white_witness :
  get3 (tone_mapper [[[255; 255; 255]]; [[255; 128; 0]]]%Z) 1 0 0
  = Some (10.0 * linear 1.0)
  /\ get3 (tone_mapper [[[255; 255; 255]]; [[255; 128; 0]]]%Z) 1 1 0
     = Some (linear (128 / 255.0)).
Proof.
  split.
  - apply (proj1 (tone_mapper_boosts_pure_white _ 2 1 0 0 [255; 255; 255]%Z
                    has_shape_example ltac:(lia) ltac:(lia) eq_refl)).
    + repeat constructor; lra.
    + lia.
  - apply (proj2 (tone_mapper_boosts_pure_white _ 2 1 1 0 [255; 128; 0]%Z
                    has_shape_example ltac:(lia) ltac:(lia) eq_refl)) with (k := 1%nat).
    + intros H. inversion H as [|? ? _ H']; subst.
      inversion H' as [|? ? H128 _]; subst. lra.
    + reflexivity.
Defined.

(** The end-to-end scenarios of the specification: a white pixel comes out
    as 10.0 and a black one as 0.0, in every plane. *)
Lemma tone_mapper_white_and_black k :
  (k < 3)%nat ->
  get3 (tone_mapper [[[255; 255; 255]; [0; 0; 0]]]%Z) k 0 0 = Some 10.0
  /\ get3 (tone_mapper [[[255; 255; 255]; [0; 0; 0]]]%Z) k 0 1 = Some 0.
Proof.
  intros Hk.
  assert (Hs : has_shape 1 2 3 [[[255; 255; 255]; [0; 0; 0]]]%Z)
    by (split; [reflexivity|repeat constructor]).
  rewrite !(get3_tone_mapper _ 1 2 3 _ _ _ Hs) by lia.
  apply Nat.ltb_lt in Hk. rewrite Hk. simpl.
  apply Nat.ltb_lt in Hk.
  split; f_equal.
  - rewrite nth_tone_pixel_white, linear_1; [lra| |simpl; lia].
    apply is_pure_white_Forall. repeat constructor; lra.
  - assert (Hb : is_pure_white (normalize_px [0; 0; 0]%Z) = false).
    { destruct (is_pure_white _) eqn:E; [|reflexivity].
      apply is_pure_white_Forall in E.
      inversion E as [|? ? H0 _]; subst. lra. }
    transitivity (linear (0 / 255.0)).
    + apply (nth_tone_pixel_other (normalize_px [0; 0; 0]%Z) k (0 / 255.0) Hb).
      destruct k as [|[|[|k]]]; [reflexivity..|lia].
    + replace (0 / 255.0) with 0 by lra. apply linear_0.
Qed.

Lemma normalize_px_range px s :
  Forall (fun v => (0 <= v <= 255)%Z) px -> In s (normalize_px px) -> 0 <= s <= 1.
Proof.
  intros Hr Hin.
  unfold normalize_px in Hin.
  apply in_map_iff in Hin as (v & <- & Hv).
  rewrite Forall_forall in Hr.
  destruct (Hr v Hv) as [Hlo Hhi].
  apply IZR_le in Hlo, Hhi.
  split.
  - apply Rmult_le_reg_r with 255.0; [lra|].
    replace (IZR v / 255.0 * 255.0) with (IZR v) by lra. lra.
  - apply Rmult_le_reg_r with 255.0; [lra|].
    replace (IZR v / 255.0 * 255.0) with (IZR v) by lra. lra.
Qed.

(** Every sample of a toned pixel, according to the mask bit of the
    pixel. *)
Lemma tone_pixel_range px x :
  (forall s, In s px -> 0 <= s <= 1) -> In x (tone_pixel px) ->
  if is_pure_white px then x = 10.0 else 0 <= x <= 1.
Proof.
  intros Hr Hin.
  unfold tone_pixel in Hin.
  destruct (is_pure_white px) eqn:Hw.
  - rewrite map_map in Hin.
    apply in_map_iff in Hin as (s & <- & Hs).
    apply is_pure_white_Forall in Hw.
    rewrite Forall_forall in Hw.
    rewrite (Hw s Hs), linear_1. lra.
  - apply in_map_iff in Hin as (s & <- & Hs).
    split; [apply linear_nonneg|apply linear_le_1]; apply Hr in Hs; lra.
Qed.

Lemma get2_pure_white_mask img i j :
  get2 (pure_white_mask (normalize img)) i j
  = option_map (fun px => is_pure_white (normalize_px px)) (get2 img i j).
Proof.
  rewrite pure_white_mask_map, get2_map.
  unfold normalize, map3.
  change (map (fun v => IZR v / 255.0)) with normalize_px.
  rewrite get2_map.
  now destruct (get2 img i j).
Qed.

(** C4. With input samples in 0..255, every output value is at least 0;
    where the mask is false it is at most the conversion of 1.0, which is
    1.0, and where the mask is true it is at most 10.0. *)
Theorem tone_mapper_range (img : ndarray3 Z) :
  (forall i j k v, get3 img i j k = Some v -> (0 <= v <= 255)%Z) ->
  forall k i j x,
    get3 (tone_mapper img) k i j = Some x ->
    0 <= x
    /\ (get2 (pure_white_mask (normalize img)) i j = Some false ->
        x <= linear 1.0 /\ linear 1.0 = 1.0)
    /\ (get2 (pure_white_mask (normalize img)) i j = Some true -> x <= 10.0).
Proof.
  intros Hrange k i j x Hx.
  rewrite tone_mapper_pixels, get3_transpose_201 in Hx.
  destruct (k <? _)%nat; [|discriminate].
  rewrite get2_map, get2_pure_white_mask in *.
  destruct (get2 img i j) as [px|] eqn:Hpx; [|discriminate].
  simpl in *.
  injection Hx as <-.
  assert (Hpxr : Forall (fun v => (0 <= v <= 255)%Z) px).
  { apply Forall_forall. intros v Hv.
    apply In_nth_error in Hv as [k' Hk'].
    apply (Hrange i j k'). now rewrite get3_get2, Hpx. }
  rewrite linear_1.
  destruct (nth_in_or_default k (tone_pixel (normalize_px px)) 0) as [Hin| ->].
  - apply tone_pixel_range in Hin; [|intros s; apply normalize_px_range, Hpxr].
    destruct (is_pure_white (normalize_px px)).
    + subst. repeat split; try lra; intros; try discriminate; lra.
    + repeat split; try lra; intros; try discriminate; lra.
  - repeat split; intros; lra.
Qed.

Lemma range_example :
  forall i j k v,
    get3 [[[255; 255; 255]]; [[255; 128; 0]]]%Z i j k = Some v -> (0 <= v <= 255)%Z.
Proof.
  intros [|[|i]] [|j] [|[|[|k]]] v H; simpl in H;
    try discriminate; try (destruct j; discriminate);
    try (destruct k; discriminate); try (destruct i; discriminate);
    injection H as <-; lia.
Qed.

Lemma not_pure_white_example :
  is_pure_white (normalize_px [255; 128; 0]%Z) = false.
Proof.
  destruct (is_pure_white _) eqn:E; [|reflexivity].
  apply is_pure_white_Forall in E.
  inversion E as [|? ? _ E']; subst.
  inversion E' as [|? ? H128 _]; subst. lra.
Qed.

Lemma get3_example :
  get3 (tone_mapper [[[255; 255; 255]]; [[255; 128; 0]]]%Z) 1 1 0
  = Some (linear (128 / 255.0)).
Proof.
  rewrite (get3_tone_mapper _ 2 1 3 _ _ _ has_shape_example) by lia.
  simpl. f_equal.
  now apply nth_tone_pixel_other; [apply not_pure_white_example|].
Qed.

Lemma tone_mapper_range_witness :
  0 <= linear (128 / 255.0)
  /\ (get2 (pure_white_mask (normalize [[[255; 255; 255]]; [[255; 128; 0]]]%Z)) 1 0
      = Some false -> linear (128 / 255.0) <= linear 1.0 /\ linear 1.0 = 1.0)
  /\ (get2 (pure_white_mask (normalize [[[255; 255; 255]]; [[255; 128; 0]]]%Z)) 1 0
      = Some true -> linear (128 / 255.0) <= 10.0).
Proof.
  exact (tone_mapper_range [[[255; 255; 255]]; [[255; 128; 0]]]%Z range_example
           1 1 0 (linear (128 / 255.0)) get3_example).
Defined.

(** *** The run of the script *)

(** The run succeeds on every image with three channels. *)
Lemma script_succeeds d img h w :
  d input_filename = Some (PngFile img) ->
  has_shape h w 3 img -> (0 < h)%nat -> (0 < w)%nat ->
  exists pixels,
    script d = Some (write d output_exr_filename (ExrFile w h pixels),
                     ["Saved linear HDR image to exr-hdr.exr"%string]).
Proof.
  intros Hin Hs Hh Hw.
  pose proof (has_shape_tone_mapper _ _ _ _ Hs Hh Hw) as Hout.
  unfold script. rewrite Hin.
  rewrite (shape_of_has_shape _ _ _ _ Hout) by lia.
  destruct Hout as [Hlen _].
  destruct (tone_mapper img) as [|p0 [|p1 [|p2 [|? ?]]]]; try discriminate.
  simpl. eexists. reflexivity.
Qed.



(** *** More on the transfer function *)

Lemma Rpower_le_exponent y a b : 0 < y <= 1 -> a <= b -> Rpower y b <= Rpower y a.
Proof.
  intros [Hy0 Hy1] Hab.
  unfold Rpower.
  assert (Hln : ln y <= 0).
  { destruct Hy1 as [Hlt| ->]; [|rewrite ln_1; lra].
    left. rewrite <- ln_1. now apply ln_increasing. }
  assert (Hm : b * ln y <= a * ln y) by nra.
  destruct Hm as [Hlt|Heq]; [left; now apply exp_increasing|rewrite Heq; lra].
Qed.

Lemma Rpower_2 y : 0 < y -> Rpower y 2 = y * y.
Proof.
  intros Hy.
  change 2 with (INR 2).
  rewrite Rpower_pow by assumption.
  simpl. lra.
Qed.

Lemma linear_le_id s : 0 <= s <= 1 -> linear s <= s.
Proof.
  intros Hs. unfold linear.
  destruct (Rle_dec s 0.04045) as [Hlow|Hhigh]; [lra|].
  assert (Hy : 0 < (s + 0.055) / 1.055 <= 1) by (split; lra).
  apply Rle_trans with (Rpower ((s + 0.055) / 1.055) 2).
  - apply Rpower_le_exponent; [assumption|lra].
  - rewrite Rpower_2 by lra.
    assert (H : (s + 0.055) * (s + 0.055) <= 1.055 * 1.055 * s) by nra.
    replace ((s + 0.055) / 1.055 * ((s + 0.055) / 1.055))
      with ((s + 0.055) * (s + 0.055) / (1.055 * 1.055)) by (field; lra).
    apply Rmult_le_reg_r with (1.055 * 1.055); [lra|].
    replace ((s + 0.055) * (s + 0.055) / (1.055 * 1.055) * (1.055 * 1.055))
      with ((s + 0.055) * (s + 0.055)) by (field; lra).
    lra.
Qed.

Lemma linear_strict s1 s2 : s1 < s2 -> linear s1 < linear s2.
Proof.
  intros Hlt. unfold linear.
  destruct (Rle_dec s1 0.04045) as [L1|L1], (Rle_dec s2 0.04045) as [L2|L2].
  - lra.
  - apply Rlt_le_trans with (Rpower ((0.04045 + 0.055) / 1.055) 2.4).
    + pose proof power_branch_at_threshold. lra.
    + apply Rpower_le_base; lra.
  - lra.
  - apply Rlt_Rpower_l; lra.
Qed.



(** *** The comparisons and the normalisation in binary32 *)

Lemma normalize32_table :
  forallb (fun n => let v := Z.of_nat n in
                    SFleb (f32_of_Z 0) (img_srgb32 v)
                    && SFleb (img_srgb32 v) (f32_of_Z 1)
                    && (SFltb (img_srgb32 v) (img_srgb32 (v + 1))
                        || (v =? 255)%Z))
          (seq 0 256) = true.
Proof. vm_compute. reflexivity. Qed.

(** As the script computes them, in binary32, the two tests on the sample
    of an 8-bit value [v] come out as [v <= 10] and [v = 255]; these are
    also the answers of exact arithmetic. *)
Theorem comparisons32_on_bytes (v : Z) :
  (0 <= v <= 255)%Z ->
  (below_threshold32 v = (v <=? 10)%Z
   /\ below_threshold32 v = Rleb (IZR v / 255.0) 0.04045)
  /\ (is_one32 v = (v =? 255)%Z
      /\ is_one32 v = Reqb (IZR v / 255.0) 1.0).
Proof.
  intros Hv.
  destruct (comparisons32 v Hv) as [H1 H2].
  destruct (comparisons32_real v Hv) as [H3 H4].
  now repeat split.
Qed.

Lemma comparisons32_on_bytes_witness :
  (below_threshold32 11 = (11 <=? 10)%Z
   /\ below_threshold32 11 = Rleb (11 / 255.0) 0.04045)
  /\ (is_one32 11 = (11 =? 255)%Z
      /\ is_one32 11 = Reqb (11 / 255.0) 1.0).
Proof.
  apply (comparisons32_on_bytes 11). lia.
Defined.

(** The normalised binary32 sample of an 8-bit value lies between 0.0 and
    1.0, and a larger value gives a strictly larger sample: rounding
    merges no two of the 256 inputs. *)
Theorem normalize32_in_range_increasing (v : Z) :
  (0 <= v <= 255)%Z ->
  SFleb (f32_of_Z 0) (img_srgb32 v) = true
  /\ SFleb (img_srgb32 v) (f32_of_Z 1) = true
  /\ ((v < 255)%Z -> SFltb (img_srgb32 v) (img_srgb32 (v + 1)) = true).
Proof.
  intros Hv.
  pose proof normalize32_table as H.
  rewrite forallb_forall in H.
  specialize (H (Z.to_nat v)).
  rewrite Z2Nat.id in H by lia.
  assert (Hin : In (Z.to_nat v) (seq 0 256)) by (apply in_seq; lia).
  apply H in Hin.
  apply andb_prop in Hin as [Hin H3].
  apply andb_prop in Hin as [H1 H2].
  repeat split; try assumption.
  intros Hlt.
  apply orb_prop in H3 as [H3|H3]; [assumption|].
  apply Z.eqb_eq in H3. lia.
Qed.

Lemma normalize32_in_range_increasing_witness :
  SFleb (f32_of_Z 0) (img_srgb32 254) = true
  /\ SFleb (img_srgb32 254) (f32_of_Z 1) = true
  /\ ((254 < 255)%Z -> SFltb (img_srgb32 254) (img_srgb32 (254 + 1)) = true).
Proof.
  apply (normalize32_in_range_increasing 254). lia.
Defined.

(** *** The mask on 8-bit samples, for any number of channels *)

Lemma Reqb_normalized v : Reqb (IZR v / 255.0) 1.0 = (v =? 255)%Z.
Proof.
  destruct (Z.eqb_spec v 255) as [->|Hne].
  - apply Reqb_true. lra.
  - destruct (Reqb _ _) eqn:E; [|reflexivity].
    apply Reqb_true in E.
    exfalso. apply Hne. apply eq_IZR. lra.
Qed.

Lemma is_pure_white_bytes px :
  is_pure_white (normalize_px px) = forallb (fun v => (v =? 255)%Z) px.
Proof.
  unfold is_pure_white, normalize_px.
  induction px as [|v px IH]; simpl; [reflexivity|].
  now rewrite IH, Reqb_normalized.
Qed.

(** Whatever the number of channels, a pixel is boosted exactly when every
    one of its 8-bit samples is 255, a fourth (alpha) sample included:
    then each of its values is 10.0, otherwise each is the plain
    conversion of its sample. *)
Theorem tone_mapper_on_bytes
    (img : ndarray3 Z) (h w c i j k : nat) (px : list Z) (v : Z) :
  has_shape h w c img -> (0 < h)%nat -> (0 < w)%nat ->
  get2 img i j = Some px ->
  nth_error px k = Some v ->
  get3 (tone_mapper img) k i j
  = Some (if forallb (fun u => (u =? 255)%Z) px
          then 10.0
          else linear (IZR v / 255.0)).
Proof.
  intros Hs Hh Hw Hpx Hv.
  destruct (has_shape_get2 _ _ _ _ _ _ _ Hs Hpx) as (_ & _ & Hlen).
  assert (Hk : (k < c)%nat).
  { rewrite <- Hlen. apply nth_error_Some. now rewrite Hv. }
  rewrite (get3_tone_mapper _ _ _ _ _ _ _ Hs Hh Hw), Hpx.
  apply Nat.ltb_lt in Hk. rewrite Hk. apply Nat.ltb_lt in Hk.
  simpl. f_equal.
  rewrite <- is_pure_white_bytes.
  destruct (is_pure_white (normalize_px px)) eqn:Hwhite.
  - rewrite nth_tone_pixel_white, linear_1; [lra|assumption|].
    unfold normalize_px. now rewrite length_map, Hlen.
  - apply nth_tone_pixel_other; [assumption|].
    unfold normalize_px. now rewrite nth_error_map, Hv.
Qed.

Lemma has_shape_rgba_example : has_shape 1 2 4 [[[255; 255; 255; 128]; [255; 255; 255; 255]]]%Z.
Proof. split; [reflexivity|]. repeat constructor. Qed.

Lemma tone_mapper_on_bytes_witness :
  get3 (tone_mapper [[[255; 255; 255; 128]; [255; 255; 255; 255]]]%Z) 0 0 0
  = Some (linear (255 / 255.0))
  /\ get3 (tone_mapper [[[255; 255; 255; 128]; [255; 255; 255; 255]]]%Z) 0 0 1
     = Some 10.0.
Proof.
  split.
  - exact (tone_mapper_on_bytes _ 1 2 4 0 0 0 [255; 255; 255; 128]%Z 255%Z
             has_shape_rgba_example ltac:(lia) ltac:(lia) eq_refl eq_refl).
  - exact (tone_mapper_on_bytes _ 1 2 4 0 1 0 [255; 255; 255; 255]%Z 255%Z
             has_shape_rgba_example ltac:(lia) ltac:(lia) eq_refl eq_refl).
Defined.

(** *** The file the script writes *)

Lemma length_concat_rect {A} (plane : list (list A)) (w : nat) :
  Forall (fun row => length row = w) plane ->
  length (concat plane) = (length plane * w)%nat.
Proof.
  induction 1 as [|row plane Hrow _ IH]; simpl; [reflexivity|].
  rewrite length_app, IH, Hrow. reflexivity.
Qed.

(** Row-major order: entry [(i, j)] of a plane of rows of length [w] is at
    offset [i * w + j] of the flattened plane. *)
Lemma nth_error_concat_rect {A} (plane : list (list A)) (w i j : nat) :
  Forall (fun row => length row = w) plane -> (j < w)%nat ->
  nth_error (concat plane) (i * w + j) = get2 plane i j.
Proof.
  intros Hrows Hj. revert i.
  induction Hrows as [|row plane Hrow _ IH]; intros i.
  - unfold get2. simpl. now rewrite !nth_error_nil.
  - destruct i as [|i]; simpl.
    + unfold get2; simpl. apply nth_error_app1. lia.
    + rewrite nth_error_app2 by lia.
      replace (w + i * w + j - length row)%nat with (i * w + j)%nat by lia.
      rewrite IH. reflexivity.
Qed.

Lemma has_shape_rows {A} (a : ndarray3 A) d0 d1 d2 plane :
  has_shape d0 d1 d2 a -> In plane a ->
  length plane = d1 /\ Forall (fun row => length row = d2) plane.
Proof.
  intros [_ Hrows] Hin.
  rewrite Forall_forall in Hrows.
  exact (Hrows _ Hin).
Qed.

(** The run on an image with at least three channels, written out. *)
Lemma script_result d img h w c :
  d input_filename = Some (PngFile img) ->
  has_shape h w c img -> (0 < h)%nat -> (0 < w)%nat -> (3 <= c)%nat ->
  exists p0 p1 p2 rest,
    tone_mapper img = p0 :: p1 :: p2 :: rest
    /\ script d
       = Some (write d output_exr_filename
                 (ExrFile w h [("R"%string, concat p0); ("G"%string, concat p1);
                               ("B"%string, concat p2)]),
               ["Saved linear HDR image to exr-hdr.exr"%string]).
Proof.
  intros Hin Hs Hh Hw Hc.
  pose proof (has_shape_tone_mapper _ _ _ _ Hs Hh Hw) as Hout.
  unfold script. rewrite Hin.
  rewrite (shape_of_has_shape _ _ _ _ Hout) by lia.
  destruct Hout as [Hlen _].
  destruct (tone_mapper img) as [|p0 [|p1 [|p2 rest]]]; simpl in Hlen; try lia.
  exists p0, p1, p2, rest.
  split; reflexivity.
Qed.

(** For an image of [h] rows and [w] columns with three channels or more,
    the run writes a header of width [w] and height [h] and the three
    buffers named R, G and B, in this order, each of [h * w] samples. *)
Theorem script_writes_header_and_channels
    (d : disk) (img : ndarray3 Z) (h w c : nat) :
  d input_filename = Some (PngFile img) ->
  has_shape h w c img -> (0 < h)%nat -> (0 < w)%nat -> (3 <= c)%nat ->
  exists r g b,
    script d
    = Some (write d output_exr_filename
              (ExrFile w h [("R"%string, r); ("G"%string, g); ("B"%string, b)]),
            ["Saved linear HDR image to exr-hdr.exr"%string])
    /\ length r = (h * w)%nat
    /\ length g = (h * w)%nat
    /\ length b = (h * w)%nat.
Proof.
  intros Hin Hs Hh Hw Hc.
  destruct (script_result d img h w c Hin Hs Hh Hw Hc)
    as (p0 & p1 & p2 & rest & Ht & Hrun).
  pose proof (has_shape_tone_mapper _ _ _ _ Hs Hh Hw) as Hout.
  rewrite Ht in Hout.
  exists (concat p0), (concat p1), (concat p2).
  split; [exact Hrun|].
  repeat split.
  - destruct (has_shape_rows _ _ _ _ p0 Hout) as [Hl Hr]; [simpl; auto|].
    now rewrite (length_concat_rect _ w Hr), Hl.
  - destruct (has_shape_rows _ _ _ _ p1 Hout) as [Hl Hr]; [simpl; auto|].
    now rewrite (length_concat_rect _ w Hr), Hl.
  - destruct (has_shape_rows _ _ _ _ p2 Hout) as [Hl Hr]; [simpl; auto|].
    now rewrite (length_concat_rect _ w Hr), Hl.
Qed.

Lemma script_writes_header_and_channels_witness :
  exists r g b,
    script disk_a
    = Some (write disk_a output_exr_filename
              (ExrFile 1 2 [("R"%string, r); ("G"%string, g); ("B"%string, b)]),
            ["Saved linear HDR image to exr-hdr.exr"%string])
    /\ length r = (2 * 1)%nat
    /\ length g = (2 * 1)%nat
    /\ length b = (2 * 1)%nat.
Proof.
  apply (script_writes_header_and_channels disk_a _ 2 1 3 eq_refl has_shape_example);
    lia.
Defined.

(** Each buffer is its plane in row-major order: the sample of channel
    number [k] at row [i] and column [j] is at offset [i * w + j] of the
    buffer written under the [k]-th channel name. *)
Theorem script_buffers_row_major
    (d : disk) (img : ndarray3 Z) (h w c k i j : nat) :
  d input_filename = Some (PngFile img) ->
  has_shape h w c img -> (0 < h)%nat -> (0 < w)%nat -> (3 <= c)%nat ->
  (k < 3)%nat -> (i < h)%nat -> (j < w)%nat ->
  exists bufs ch buf,
    exported d = Some (ExrFile w h bufs)
    /\ nth_error channels k = Some ch
    /\ nth_error bufs k = Some (ch, buf)
    /\ nth_error buf (i * w + j) = get3 (tone_mapper img) k i j.
Proof.
  intros Hin Hs Hh Hw Hc Hk Hi Hj.
  destruct (script_result d img h w c Hin Hs Hh Hw Hc)
    as (p0 & p1 & p2 & rest & Ht & Hrun).
  pose proof (has_shape_tone_mapper _ _ _ _ Hs Hh Hw) as Hout.
  rewrite Ht in Hout.
  unfold exported. rewrite Hrun, Ht.
  unfold write. rewrite String.eqb_refl.
  eexists.
  destruct k as [|[|[|k]]]; [| | |lia]; do 2 eexists;
    (split; [reflexivity|]); (split; [reflexivity|]); (split; [reflexivity|]);
    rewrite get3_get2.
  - destruct (has_shape_rows _ _ _ _ p0 Hout) as [_ Hr]; [simpl; auto|].
    now rewrite (nth_error_concat_rect _ w i j Hr Hj).
  - destruct (has_shape_rows _ _ _ _ p1 Hout) as [_ Hr]; [simpl; auto|].
    now rewrite (nth_error_concat_rect _ w i j Hr Hj).
  - destruct (has_shape_rows _ _ _ _ p2 Hout) as [_ Hr]; [simpl; auto|].
    now rewrite (nth_error_concat_rect _ w i j Hr Hj).
Qed.

Lemma script_buffers_row_major_witness :
  exists bufs ch buf,
    exported disk_a = Some (ExrFile 1 2 bufs)
    /\ nth_error channels 1 = Some ch
    /\ nth_error bufs 1 = Some (ch, buf)
    /\ nth_error buf (1 * 1 + 0)
       = get3 (tone_mapper [[[255; 255; 255]]; [[255; 128; 0]]]%Z) 1 1 0.
Proof.
  apply (script_buffers_row_major disk_a _ 2 1 3 1 1 0 eq_refl has_shape_example);
    lia.
Defined.

(** A run changes the disk under the output name only: every other file,
    the input image included, is as it was. *)
Theorem script_touches_only_output (d d' : disk) (out : list string) (n : string) :
  script d = Some (d', out) ->
  n <> output_exr_filename ->
  d' n = d n.
Proof.
  unfold script.
  destruct (d input_filename) as [[img|? ? ?]|]; try discriminate.
  destruct (shape (tone_mapper img)) as [[? height] width].
  destruct (channel_buffers _ _); [|discriminate].
  intros H Hn. injection H as <- _.
  unfold write.
  apply String.eqb_neq in Hn. now rewrite Hn.
Qed.

Lemma script_touches_only_output_witness :
  exists d', script disk_b = Some (d', ["Saved linear HDR image to exr-hdr.exr"%string])
             /\ d' "other.png"%string = disk_b "other.png"%string.
Proof.
  destruct (script_succeeds disk_b _ 2 1 eq_refl has_shape_example) as [px H];
    try lia.
  eexists. split; [exact H|].
  apply (script_touches_only_output disk_b _ _ "other.png"%string H).
  discriminate.
Defined.

(** With fewer than three channels the run stops on the [IndexError] of
    the missing plane; with three or more it completes. *)
Theorem script_needs_three_channels (d : disk) (img : ndarray3 Z) (h w c : nat) :
  d input_filename = Some (PngFile img) ->
  has_shape h w c img -> (0 < h)%nat -> (0 < w)%nat ->
  (script d = None <-> (c < 3)%nat).
Proof.
  intros Hin Hs Hh Hw.
  split.
  - intros Hnone.
    destruct (Nat.lt_ge_cases c 3) as [Hlt|Hge]; [assumption|].
    destruct (script_result d img h w c Hin Hs Hh Hw Hge)
      as (? & ? & ? & ? & _ & Hrun).
    rewrite Hrun in Hnone. discriminate.
  - intros Hc.
    pose proof (has_shape_tone_mapper _ _ _ _ Hs Hh Hw) as [Hlen _].
    unfold script. rewrite Hin.
    destruct (shape (tone_mapper img)) as [[? height] width].
    destruct (tone_mapper img) as [|p0 [|p1 [|p2 rest]]]; simpl in Hlen;
      try reflexivity.
    lia.
Qed.

Lemma has_shape_two_channels : has_shape 1 1 2 [[[128; 255]]]%Z.
Proof. split; [reflexivity|]. repeat constructor. Qed.

Lemma script_needs_three_channels_witness :
  script (fun _ => Some (PngFile [[[128; 255]]]%Z)) = None <-> (2 < 3)%nat.
Proof.
  apply (script_needs_three_channels _ [[[128; 255]]]%Z 1 1 2 eq_refl
           has_shape_two_channels); lia.
Defined.



Lemma tone_mapper_value_range (img : ndarray3 Z) k i j x :
  (forall i j k v, get3 img i j k = Some v -> (0 <= v <= 255)%Z) ->
  get3 (tone_mapper img) k i j = Some x -> 0 <= x <= 10.0.
Proof.
  intros Hrange Hx.
  rewrite tone_mapper_pixels, get3_transpose_201 in Hx.
  destruct (k <? _)%nat; [|discriminate].
  rewrite get2_map in Hx.
  destruct (get2 img i j) as [px|] eqn:Hpx; [|discriminate].
  simpl in Hx. injection Hx as <-.
  assert (Hpxr : Forall (fun v => (0 <= v <= 255)%Z) px).
  { apply Forall_forall. intros v Hv.
    apply In_nth_error in Hv as [k' Hk'].
    apply (Hrange i j k'). now rewrite get3_get2, Hpx. }
  destruct (nth_in_or_default k (tone_pixel (normalize_px px)) 0) as [Hin| ->]; [|lra].
  apply tone_pixel_range in Hin; [|intros s; apply normalize_px_range, Hpxr].
  destruct (is_pure_white (normalize_px px)); lra.
Qed.

Lemma in_concat_get2 {A} (plane : list (list A)) (x : A) :
  In x (concat plane) -> exists i j, get2 plane i j = Some x.
Proof.
  intros Hin.
  apply in_concat in Hin as (row & Hrow & Hx).
  apply In_nth_error in Hrow as [i Hi].
  apply In_nth_error in Hx as [j Hj].
  exists i, j. unfold get2. now rewrite Hi.
Qed.

(** For an 8-bit image, every sample of the three buffers the run writes
    lies between 0 and 10. *)
Theorem script_samples_in_range
    (d : disk) (img : ndarray3 Z) (h w c : nat) :
  d input_filename = Some (PngFile img) ->
  has_shape h w c img -> (0 < h)%nat -> (0 < w)%nat -> (3 <= c)%nat ->
  (forall i j k v, get3 img i j k = Some v -> (0 <= v <= 255)%Z) ->
  exists bufs,
    exported d = Some (ExrFile w h bufs)
    /\ forall ch buf x, In (ch, buf) bufs -> In x buf -> 0 <= x <= 10.0.
Proof.
  intros Hin Hs Hh Hw Hc Hrange.
  destruct (script_result d img h w c Hin Hs Hh Hw Hc)
    as (p0 & p1 & p2 & rest & Ht & Hrun).
  unfold exported. rewrite Hrun.
  unfold write. rewrite String.eqb_refl.
  eexists. split; [reflexivity|].
  intros ch buf x Hbuf Hx.
  assert (Hk : exists k i j, get3 (tone_mapper img) k i j = Some x).
  { rewrite Ht.
    destruct Hbuf as [H|[H|[H|[]]]]; injection H as _ <-;
      apply in_concat_get2 in Hx as (i & j & Hij);
      [exists 0%nat|exists 1%nat|exists 2%nat]; exists i, j;
      rewrite get3_get2; unfold get2 in *; simpl;
      destruct (nth_error _ i); congruence. }
  destruct Hk as (k & i & j & Hk).
  exact (tone_mapper_value_range img k i j x Hrange Hk).
Qed.

Lemma script_samples_in_range_witness :
  exists bufs,
    exported disk_a = Some (ExrFile 1 2 bufs)
    /\ forall ch buf x, In (ch, buf) bufs -> In x buf -> 0 <= x <= 10.0.
Proof.
  apply (script_samples_in_range disk_a _ 2 1 3 eq_refl has_shape_example);
    try lia.
  exact range_example.
Defined.


(** *** The conversion on 8-bit inputs *)

Lemma get3_converted_byte (img : ndarray3 Z) i j k v :
  get3 img i j k = Some v ->
  get3 (srgb_to_linear (normalize img)) i j k = Some (linear (IZR v / 255.0)).
Proof.
  intros Hv.
  rewrite srgb_to_linear_map3.
  unfold normalize.
  now rewrite !get3_map3, Hv.
Qed.

Lemma normalized_byte_range v :
  (0 <= v <= 255)%Z -> 0 <= IZR v / 255.0 <= 1.
Proof.
  intros [Hlo Hhi].
  apply IZR_le in Hlo, Hhi.
  split.
  - apply Rmult_le_reg_r with 255.0; [lra|].
    replace (IZR v / 255.0 * 255.0) with (IZR v) by lra. lra.
  - apply Rmult_le_reg_r with 255.0; [lra|].
    replace (IZR v / 255.0 * 255.0) with (IZR v) by lra. lra.
Qed.

Lemma low_branch32_table :
  forallb (fun n => let v := Z.of_nat n in
                    SFleb (f32_of_Z 0) (low_branch32 v)
                    && SFleb (low_branch32 v) (img_srgb32 v))
          (seq 0 11) = true.
Proof. vm_compute. reflexivity. Qed.

Lemma low_branch32_pairs :
  forallb (fun n1 =>
             forallb (fun n2 =>
                        (n2 <=? n1)%nat
                        || SFltb (low_branch32 (Z.of_nat n1))
                                 (low_branch32 (Z.of_nat n2)))
                     (seq 0 11))
          (seq 0 11) = true.
Proof. vm_compute. reflexivity. Qed.

(** The sample of an 8-bit value is never converted to a larger value:
    the converted sample lies between 0 and the normalized one.  For the
    values up to 10, which take the linear branch, the binary32 quotient
    the script computes obeys the same bounds. *)
Theorem srgb_to_linear_never_brightens_bytes
    (img : ndarray3 Z) (i j k : nat) (v : Z) :
  get3 img i j k = Some v -> (0 <= v <= 255)%Z ->
  (exists x,
      get3 (srgb_to_linear (normalize img)) i j k = Some x
      /\ 0 <= x /\ x <= IZR v / 255.0)
  /\ ((v <= 10)%Z ->
      below_threshold32 v = true
      /\ SFleb (f32_of_Z 0) (low_branch32 v) = true
      /\ SFleb (low_branch32 v) (img_srgb32 v) = true).
Proof.
  intros Hv Hbyte.
  pose proof (normalized_byte_range v Hbyte) as Hs.
  split.
  - exists (linear (IZR v / 255.0)).
    split; [now apply get3_converted_byte|].
    split; [apply linear_nonneg; lra|now apply linear_le_id].
  - intros Hlow.
    destruct (comparisons32 v Hbyte) as [Hthr _].
    split; [rewrite Hthr; now apply Z.leb_le|].
    pose proof low_branch32_table as H.
    rewrite forallb_forall in H.
    specialize (H (Z.to_nat v)).
    rewrite Z2Nat.id in H by lia.
    assert (Hin : In (Z.to_nat v) (seq 0 11)) by (apply in_seq; lia).
    apply H in Hin.
    now apply andb_prop in Hin.
Qed.

Lemma srgb_to_linear_never_brightens_bytes_witness :
  (exists x,
      get3 (srgb_to_linear (normalize [[[255; 255; 255]]; [[255; 128; 0]]]%Z)) 1 0 1
      = Some x
      /\ 0 <= x /\ x <= 128 / 255.0)
  /\ (exists x,
        get3 (srgb_to_linear (normalize [[[7; 255; 255]]]%Z)) 0 0 0 = Some x
        /\ 0 <= x /\ x <= 7 / 255.0)
  /\ below_threshold32 7 = true
  /\ SFleb (f32_of_Z 0) (low_branch32 7) = true
  /\ SFleb (low_branch32 7) (img_srgb32 7) = true.
Proof.
  split.
  - apply (srgb_to_linear_never_brightens_bytes
             [[[255; 255; 255]]; [[255; 128; 0]]]%Z 1 0 1 128%Z eq_refl).
    lia.
  - destruct (srgb_to_linear_never_brightens_bytes
                [[[7; 255; 255]]]%Z 0 0 0 7%Z eq_refl ltac:(lia)) as [Hreal H32].
    split; [exact Hreal|].
    apply H32. lia.
Defined.

(** Of two different 8-bit values the larger is converted to the strictly
    larger sample, across the threshold as well: the conversion merges no
    two input levels.  For two values up to 10, which take the linear
    branch, the binary32 quotients the script computes are strictly
    ordered too. *)
Theorem srgb_to_linear_strictly_increasing_bytes
    (img : ndarray3 Z) (i j k i' j' k' : nat) (v1 v2 : Z) :
  get3 img i j k = Some v1 ->
  get3 img i' j' k' = Some v2 ->
  (0 <= v1)%Z -> (v1 < v2)%Z -> (v2 <= 255)%Z ->
  (exists x1 x2,
      get3 (srgb_to_linear (normalize img)) i j k = Some x1
      /\ get3 (srgb_to_linear (normalize img)) i' j' k' = Some x2
      /\ x1 < x2)
  /\ ((v2 <= 10)%Z -> SFltb (low_branch32 v1) (low_branch32 v2) = true).
Proof.
  intros H1 H2 H0 Hlt Hhi.
  split.
  - exists (linear (IZR v1 / 255.0)), (linear (IZR v2 / 255.0)).
    split; [now apply get3_converted_byte|].
    split; [now apply get3_converted_byte|].
    apply linear_strict.
    apply IZR_lt in Hlt.
    apply Rmult_lt_reg_r with 255.0; [lra|].
    replace (IZR v1 / 255.0 * 255.0) with (IZR v1) by lra.
    replace (IZR v2 / 255.0 * 255.0) with (IZR v2) by lra.
    assumption.
  - intros Hlow.
    pose proof low_branch32_pairs as H.
    rewrite forallb_forall in H.
    specialize (H (Z.to_nat v1)).
    assert (Hin1 : In (Z.to_nat v1) (seq 0 11)) by (apply in_seq; lia).
    apply H in Hin1.
    rewrite forallb_forall in Hin1.
    specialize (Hin1 (Z.to_nat v2)).
    assert (Hin2 : In (Z.to_nat v2) (seq 0 11)) by (apply in_seq; lia).
    apply Hin1 in Hin2.
    rewrite !Z2Nat.id in Hin2 by lia.
    apply orb_prop in Hin2 as [Hle|Hok]; [|assumption].
    apply Nat.leb_le in Hle. lia.
Qed.

Lemma srgb_to_linear_strictly_increasing_bytes_witness :
  (exists x1 x2,
      get3 (srgb_to_linear (normalize [[[10; 11; 255]]]%Z)) 0 0 0 = Some x1
      /\ get3 (srgb_to_linear (normalize [[[10; 11; 255]]]%Z)) 0 0 1 = Some x2
      /\ x1 < x2)
  /\ SFltb (low_branch32 9) (low_branch32 10) = true.
Proof.
  split.
  - apply (srgb_to_linear_strictly_increasing_bytes
             [[[10; 11; 255]]]%Z 0 0 0 0 0 1 10%Z 11%Z eq_refl eq_refl); lia.
  - apply (srgb_to_linear_strictly_increasing_bytes
             [[[9; 10; 255]]]%Z 0 0 0 0 0 1 9%Z 10%Z eq_refl eq_refl); lia.
Defined.

End ExrHdrProofs.

(** ** The export loop *)

Module LdrFormatsProofs.
Import NdArray NdArrayFacts LdrFormats.
Local Open Scope Z_scope.
Local Open Scope string_scope.

(** *** The request of one format *)

Lemma call_filename_request img fmt output_filename :
  call_filename (request img fmt output_filename) = output_filename.
Proof.
  unfold request.
  destruct (fmt =? "qoi"); [reflexivity|].
  destruct (fmt =? "dds"); [reflexivity|].
  destruct (fmt =? "pam"); [reflexivity|].
  destruct (fmt =? "ico"); reflexivity.
Qed.

Lemma get3_index_last idx (a : ndarray3 Z) i j k :
  get3 (index_last idx a) i j k
  = match get2 a i j with
    | Some px => option_map (fun n => nth n px 0) (nth_error idx k)
    | None => None
    end.
Proof.
  rewrite get3_get2.
  unfold index_last.
  rewrite get2_map.
  destruct (get2 a i j) as [px|]; simpl; [|reflexivity].
  apply nth_error_map.
Qed.

(** Every pixel of the array of an RGB image has three bands. *)
Lemma np_array_RGB_pixel img i j px :
  get2 (np_array (convert RGB img)) i j = Some px ->
  exists r g b, px = [r; g; b].
Proof.
  destruct img as [p|p]; simpl; rewrite !get2_map;
    destruct (get2 p i j) as [q|]; simpl; try discriminate;
    intros H; injection H as <-.
  - destruct q as [[r g] b]. now exists r, g, b.
  - destruct q as [[[r g] b] a]. now exists r, g, b.
Qed.

(** C8. The array handed to the DDS encoder is the array of the RGB image
    with bands 0 and 2 exchanged at every pixel and band 1 kept; the
    request of any other format carries the image or its array as
    decoded, with no band moved. *)
Theorem dds_request_swaps_red_and_blue (img : image) (output_filename : string) :
  exists img_bgra,
    request img "dds" output_filename
    = IioImwrite output_filename img_bgra (Some ".dds")
    /\ (forall i j,
          get3 img_bgra i j 0 = get3 (np_array (convert RGB img)) i j 2
          /\ get3 img_bgra i j 1 = get3 (np_array (convert RGB img)) i j 1
          /\ get3 img_bgra i j 2 = get3 (np_array (convert RGB img)) i j 0
          /\ get3 img_bgra i j 3 = None)
    /\ (forall fmt,
          fmt <> "dds" ->
          request img fmt output_filename
          = QoiWrite output_filename (np_array (convert RGBA img))
          \/ request img fmt output_filename
             = IioImwrite output_filename (np_array img) None
          \/ request img fmt output_filename
             = PilSave output_filename (convert RGBA img) "ICO"
          \/ request img fmt output_filename
             = PilSave output_filename img (upper fmt)).
Proof.
  exists (index_last [2; 1; 0]%nat (np_array (convert RGB img))).
  split; [reflexivity|].
  split.
  - intros i j.
    rewrite !get3_index_last, !get3_get2.
    destruct (get2 (np_array (convert RGB img)) i j) as [px|] eqn:Hpx;
      [|now repeat split].
    destruct (np_array_RGB_pixel _ _ _ _ Hpx) as (r & g & b & ->).
    now repeat split.
  - intros fmt Hfmt.
    unfold request.
    destruct (fmt =? "qoi"); [now left|].
    destruct (String.eqb_spec fmt "dds") as [->|_]; [contradiction|].
    destruct (fmt =? "pam"); [now right; left|].
    destruct (fmt =? "ico"); [now right; right; left|now right; right; right].
Qed.

Lemma dds_request_swaps_red_and_blue_witness :
  request example_img "dds" "./dds.dds"
  = IioImwrite "./dds.dds" [[[0; 0; 255]; [3; 2; 1]]] (Some ".dds")
  /\ (request example_img "bmp" "./bmp.bmp"
      = QoiWrite "./bmp.bmp" (np_array (convert RGBA example_img))
      \/ request example_img "bmp" "./bmp.bmp"
         = IioImwrite "./bmp.bmp" (np_array example_img) None
      \/ request example_img "bmp" "./bmp.bmp"
         = PilSave "./bmp.bmp" (convert RGBA example_img) "ICO"
      \/ request example_img "bmp" "./bmp.bmp"
         = PilSave "./bmp.bmp" example_img (upper "bmp")).
Proof.
  split; [reflexivity|].
  destruct (dds_request_swaps_red_and_blue example_img "./bmp.bmp")
    as (arr & _ & _ & Hother).
  apply Hother. discriminate.
Defined.

(** *** The loop *)

Section Loop.
Variable img : image.
Variable codec : codec_call -> outcome.

(** No item with an encoder name is skipped, whatever the encoders do. *)
Lemma export_loop_no_skip items ext :
  In (Skipping ext) (fst (export_loop img codec items)) ->
  In (ext, None) items.
Proof.
  induction items as [|[ext' [fmt|]] rest IH]; simpl.
  - intros [].
  - destruct (codec _) as [|e].
    + destruct (export_loop img codec rest) as [evs r]; simpl in *.
      intros [H|[H|H]]; try discriminate. right. now apply IH.
    + destruct (is_Exception e).
      * destruct (export_loop img codec rest) as [evs r]; simpl in *.
        intros [H|[H|H]]; try discriminate. right. now apply IH.
      * simpl. intros [H|[]]. discriminate.
  - destruct (export_loop img codec rest) as [evs r]; simpl in *.
    intros [H|H].
    + injection H as ->. now left.
    + right. now apply IH.
Qed.

Hypothesis Hcodec : raises_only_Exception codec.

(** With encoders that raise nothing outside of [Exception], the loop
    reaches the end of the list and makes every request, in order. *)
Lemma export_loop_complete items :
  snd (export_loop img codec items) = None
  /\ calls (fst (export_loop img codec items)) = requests img items.
Proof.
  induction items as [|[ext [fmt|]] rest [IHr IHc]]; simpl; [now split| |].
  - destruct (codec _) as [|e] eqn:Hc.
    + destruct (export_loop img codec rest) as [evs r]; simpl in *.
      split; [assumption|now f_equal].
    + rewrite (Hcodec _ _ Hc).
      destruct (export_loop img codec rest) as [evs r]; simpl in *.
      split; [assumption|now f_equal].
  - destruct (export_loop img codec rest) as [evs r]; simpl in *.
    now split.
Qed.

(** The outcome of every request shows among the events. *)
Lemma export_loop_outcome items ext fmt :
  In (ext, Some fmt) items ->
  In (Call (request img fmt (output_filename_of ext)))
     (fst (export_loop img codec items))
  /\ match codec (request img fmt (output_filename_of ext)) with
     | Returned =>
         In (Saved (output_filename_of ext)) (fst (export_loop img codec items))
     | Raised e =>
         In (Failed ext e) (fst (export_loop img codec items))
     end.
Proof.
  induction items as [|[ext' [fmt'|]] rest IH]; simpl; [intros []| |].
  - intros [H|H].
    + injection H as -> ->.
      destruct (codec _) as [|e] eqn:Hc.
      * destruct (export_loop img codec rest) as [evs r]; simpl. auto.
      * rewrite (Hcodec _ _ Hc).
        destruct (export_loop img codec rest) as [evs r]; simpl. auto.
    + specialize (IH H).
      destruct (codec (request img fmt' _)) as [|e'] eqn:Hc'.
      * destruct (export_loop img codec rest) as [evs r]; simpl in *.
        destruct IH as [IH1 IH2]. split; [auto|].
        destruct (codec (request img fmt _)); auto.
      * rewrite (Hcodec _ _ Hc').
        destruct (export_loop img codec rest) as [evs r]; simpl in *.
        destruct IH as [IH1 IH2]. split; [auto|].
        destruct (codec (request img fmt _)); auto.
  - intros [H|H]; [discriminate|].
    specialize (IH H).
    destruct (export_loop img codec rest) as [evs r]; simpl in *.
    destruct IH as [IH1 IH2]. split; [auto|].
    destruct (codec (request img fmt _)); auto.
Qed.

End Loop.

Lemma in_stdout ev l evs : In ev evs -> line ev = Some l -> In l (stdout evs).
Proof.
  induction evs as [|ev' evs IH]; simpl; [intros []|].
  intros [->|Hin] Hl.
  - rewrite Hl. now left.
  - destruct (line ev'); [right|]; now apply IH.
Qed.

Lemma gif_fails_raises_only_Exception : raises_only_Exception gif_fails.
Proof.
  intros c e. unfold gif_fails.
  destruct c as [| |f im format]; try discriminate.
  destruct (format =? "GIF"); [|discriminate].
  intros H. now injection H as <-.
Qed.

(** An exception outside of [Exception] is not caught: it ends the run at
    the first request. *)
Lemma export_loop_stops_outside_Exception img e :
  is_Exception e = false ->
  run img (fun _ => Raised e)
  = ([Call (PilSave "./bmp.bmp" img "BMP")], Some e).
Proof.
  intros He. unfold run; simpl. now rewrite He.
Qed.

Lemma formats_values : Forall (fun p => snd p <> None) formats.
Proof. repeat constructor; discriminate. Qed.

Lemma formats_filenames img :
  map call_filename (requests img formats)
  = map (fun p => output_filename_of (fst p)) formats.
Proof.
  reflexivity.
Qed.

(** C7. With encoders that raise instances of [Exception], the loop runs
    to the end of the list: the requests made are those of the eleven
    formats, one each and in order, under the file names [./ext.ext] whose
    extension is the key; and a request that raises leaves the event and
    the printed line that name the key and the text of the error. *)
Theorem export_loop_catches_failures (img : image) (codec : codec_call -> outcome) :
  raises_only_Exception codec ->
  snd (run img codec) = None
  /\ calls (fst (run img codec)) = requests img formats
  /\ map call_filename (calls (fst (run img codec)))
     = map (fun p => output_filename_of (fst p)) formats
  /\ Forall (fun p => extension (output_filename_of (fst p)) = fst p) formats
  /\ NoDup (map fst formats)
  /\ (forall ext fmt e,
        In (ext, Some fmt) formats ->
        codec (request img fmt (output_filename_of ext)) = Raised e ->
        In (Failed ext e) (fst (run img codec))
        /\ In ("Failed to save " ++ ext ++ ": " ++ str e)
              (stdout (fst (run img codec)))).
Proof.
  intros Hcodec.
  destruct (export_loop_complete img codec Hcodec formats) as [Hend Hcalls].
  unfold run.
  split; [exact Hend|].
  split; [exact Hcalls|].
  split; [rewrite Hcalls; apply formats_filenames|].
  split; [repeat constructor|].
  split; [repeat constructor; simpl; intuition discriminate|].
  intros ext fmt e Hin Hraise.
  pose proof (export_loop_outcome img codec Hcodec formats ext fmt Hin) as [_ Ho].
  rewrite Hraise in Ho.
  split; [exact Ho|].
  now apply (in_stdout _ _ _ Ho).
Qed.

Lemma export_loop_catches_failures_witness :
  snd (run example_img gif_fails) = None
  /\ map call_filename (calls (fst (run example_img gif_fails)))
     = ["./bmp.bmp"; "./dds.dds"; "./gif.gif"; "./ico.ico"; "./jpg.jpg";
        "./qoi.qoi"; "./tga.tga"; "./tif.tif"; "./webp.webp"; "./pam.pam";
        "./ppm.ppm"]
  /\ In "Failed to save gif: cannot write mode RGB as GIF"
        (stdout (fst (run example_img gif_fails))).
Proof.
  destruct (export_loop_catches_failures example_img gif_fails
              gif_fails_raises_only_Exception)
    as (Hend & _ & Hnames & _ & _ & Hfail).
  split; [exact Hend|].
  split; [exact Hnames|].
  apply (Hfail "gif" "gif" {| is_Exception := true;
                              str := "cannot write mode RGB as GIF" |}).
  - simpl. auto.
  - reflexivity.
Defined.

(** C10. Every value of [formats] is an encoder name, so the loop never
    takes the branch that skips an item; with encoders that raise
    instances of [Exception] every listed format has its request made. *)
Theorem skip_branch_unreachable :
  Forall (fun p => snd p <> None) formats
  /\ (forall img codec ext, ~ In (Skipping ext) (fst (run img codec)))
  /\ (forall img codec,
        raises_only_Exception codec ->
        forall ext fmt,
          In (ext, fmt) formats ->
          exists f,
            fmt = Some f
            /\ In (Call (request img f (output_filename_of ext)))
                  (fst (run img codec))).
Proof.
  split; [exact formats_values|].
  split.
  - intros img codec ext Hskip.
    apply export_loop_no_skip in Hskip.
    pose proof formats_values as Hv.
    rewrite Forall_forall in Hv.
    now apply (Hv _ Hskip).
  - intros img codec Hcodec ext [f|] Hin.
    + exists f. split; [reflexivity|].
      now apply export_loop_outcome.
    + pose proof formats_values as Hv.
      rewrite Forall_forall in Hv.
      now destruct (Hv _ Hin).
Qed.

Lemma skip_branch_unreachable_witness :
  exists f,
    Some "ppm" = Some f
    /\ In (Call (request example_img f (output_filename_of "ppm")))
          (fst (run example_img gif_fails)).
Proof.
  apply (proj2 (proj2 skip_branch_unreachable) example_img gif_fails
           gif_fails_raises_only_Exception "ppm" (Some "ppm")).
  simpl. intuition.
Defined.

(** *** The loop on an arbitrary table *)

Lemma calls_app evs1 evs2 : calls (evs1 ++ evs2) = (calls evs1 ++ calls evs2)%list.
Proof.
  induction evs1 as [|[ | | | ] evs1 IH]; simpl; now rewrite ?IH.
Qed.

Lemma stdout_app evs1 evs2 : stdout (evs1 ++ evs2) = (stdout evs1 ++ stdout evs2)%list.
Proof.
  induction evs1 as [|ev evs1 IH]; simpl; [reflexivity|].
  destruct (line ev); simpl; now rewrite IH.
Qed.

Section Prefix.
Variable img : image.
Variable codec : codec_call -> outcome.

(** Over items whose exceptions are caught, the loop goes on with the
    rest of the list. *)
Lemma export_loop_app pre rest :
  caught_on img codec pre ->
  export_loop img codec (pre ++ rest)
  = ((fst (export_loop img codec pre) ++ fst (export_loop img codec rest))%list,
     snd (export_loop img codec rest))
  /\ snd (export_loop img codec pre) = None
  /\ calls (fst (export_loop img codec pre)) = requests img pre
  /\ stdout (fst (export_loop img codec pre)) = map (item_line img codec) pre.
Proof.
  induction pre as [|[ext [fmt|]] pre IH]; intros Hpre.
  - simpl. now destruct (export_loop img codec rest).
  - assert (Hpre' : caught_on img codec pre).
    { intros ext' fmt' e' Hin. apply Hpre. now right. }
    destruct (IH Hpre') as (IHapp & IHend & IHcalls & IHout).
    simpl. rewrite IHapp.
    destruct (codec (request img fmt (output_filename_of ext))) as [|e] eqn:Hc.
    + destruct (export_loop img codec pre) as [evs r]; simpl in *.
      repeat split; try assumption; now f_equal.
    + rewrite (Hpre ext fmt e (or_introl eq_refl) Hc).
      destruct (export_loop img codec pre) as [evs r]; simpl in *.
      repeat split; try assumption; now f_equal.
  - assert (Hpre' : caught_on img codec pre).
    { intros ext' fmt' e' Hin. apply Hpre. now right. }
    destruct (IH Hpre') as (IHapp & IHend & IHcalls & IHout).
    simpl. rewrite IHapp.
    destruct (export_loop img codec pre) as [evs r]; simpl in *.
    repeat split; try assumption; now f_equal.
Qed.

End Prefix.

(** For any table of formats and encoders that raise instances of
    [Exception], the loop ends normally, prints exactly one line per item
    (skipped, saved or failed, in the order of the table) and makes one
    request per item that names an encoder. *)
Theorem export_loop_one_line_per_item
    (img : image) (codec : codec_call -> outcome)
    (items : list (string * option string)) :
  raises_only_Exception codec ->
  snd (export_loop img codec items) = None
  /\ stdout (fst (export_loop img codec items)) = map (item_line img codec) items
  /\ calls (fst (export_loop img codec items)) = requests img items.
Proof.
  intros Hcodec.
  assert (Hpre : caught_on img codec items).
  { intros ext fmt e _ Hc. exact (Hcodec _ _ Hc). }
  destruct (export_loop_app img codec items [] Hpre) as (_ & Hend & Hcalls & Hout).
  now repeat split.
Qed.

Lemma export_loop_one_line_per_item_witness :
  snd (export_loop example_img gif_fails [("gif", Some "gif"); ("xyz", None); ("ppm", Some "ppm")])
  = None
  /\ stdout (fst (export_loop example_img gif_fails
                    [("gif", Some "gif"); ("xyz", None); ("ppm", Some "ppm")]))
     = map (item_line example_img gif_fails)
           [("gif", Some "gif"); ("xyz", None); ("ppm", Some "ppm")]
  /\ calls (fst (export_loop example_img gif_fails
                   [("gif", Some "gif"); ("xyz", None); ("ppm", Some "ppm")]))
     = requests example_img [("gif", Some "gif"); ("xyz", None); ("ppm", Some "ppm")].
Proof.
  apply (export_loop_one_line_per_item example_img gif_fails).
  exact gif_fails_raises_only_Exception.
Defined.

(** An exception that is no instance of [Exception] escapes the loop: the
    run ends with it at the item that raised it, nothing is printed for
    that item, and no later item is requested or reported. *)
Theorem export_loop_stops_at_uncaught
    (img : image) (codec : codec_call -> outcome)
    (pre post : list (string * option string)) (ext fmt : string) (e : exn) :
  caught_on img codec pre ->
  codec (request img fmt (output_filename_of ext)) = Raised e ->
  is_Exception e = false ->
  snd (export_loop img codec (pre ++ (ext, Some fmt) :: post)) = Some e
  /\ calls (fst (export_loop img codec (pre ++ (ext, Some fmt) :: post)))
     = (requests img pre ++ [request img fmt (output_filename_of ext)])%list
  /\ stdout (fst (export_loop img codec (pre ++ (ext, Some fmt) :: post)))
     = map (item_line img codec) pre.
Proof.
  intros Hpre Hc He.
  destruct (export_loop_app img codec pre ((ext, Some fmt) :: post) Hpre)
    as (Happ & _ & Hcalls & Hout).
  rewrite Happ.
  simpl. rewrite Hc, He. simpl.
  rewrite calls_app, stdout_app, Hcalls, Hout. simpl.
  now rewrite app_nil_r.
Qed.

Lemma export_loop_stops_at_uncaught_witness :
  snd (export_loop example_img gif_interrupted
         ([("bmp", Some "bmp")] ++ ("gif", Some "gif") :: [("ppm", Some "ppm")]))
  = Some {| is_Exception := false; str := "" |}
  /\ calls (fst (export_loop example_img gif_interrupted
                   ([("bmp", Some "bmp")] ++ ("gif", Some "gif") :: [("ppm", Some "ppm")])))
     = (requests example_img [("bmp", Some "bmp")]
        ++ [request example_img "gif" (output_filename_of "gif")])%list
  /\ stdout (fst (export_loop example_img gif_interrupted
                    ([("bmp", Some "bmp")] ++ ("gif", Some "gif") :: [("ppm", Some "ppm")])))
     = map (item_line example_img gif_interrupted) [("bmp", Some "bmp")].
Proof.
  apply (export_loop_stops_at_uncaught example_img gif_interrupted
           [("bmp", Some "bmp")] [("ppm", Some "ppm")] "gif" "gif").
  - intros ext fmt e [H|[]]. injection H as <- <-. discriminate.
  - reflexivity.
  - reflexivity.
Defined.

(** *** What the requests carry *)

Lemma index_last_swap_twice (a : ndarray3 Z) :
  Forall (Forall (fun px => length px = 3%nat)) a ->
  index_last [2; 1; 0]%nat (index_last [2; 1; 0]%nat a) = a.
Proof.
  intros Ha.
  unfold index_last.
  rewrite map_map.
  rewrite <- (map_id a) at 2.
  apply map_ext_in; intros row Hrow.
  rewrite Forall_forall in Ha.
  pose proof (Ha _ Hrow) as Hpx.
  rewrite map_map.
  rewrite <- (map_id row) at 2.
  apply map_ext_in; intros px Hin.
  rewrite Forall_forall in Hpx.
  pose proof (Hpx _ Hin) as Hlen.
  destruct px as [|r [|g [|b [|? ?]]]]; try discriminate.
  reflexivity.
Qed.

Lemma np_array_RGB_bands img :
  Forall (Forall (fun px => length px = 3%nat)) (np_array (convert RGB img)).
Proof.
  destruct img as [p|p]; simpl.
  - apply Forall_map, Forall_forall; intros row _.
    apply Forall_map, Forall_forall; intros [[r g] b] _. reflexivity.
  - rewrite map_map.
    apply Forall_map, Forall_forall; intros row _.
    rewrite map_map.
    apply Forall_map, Forall_forall; intros [[[r g] b] a] _. reflexivity.
Qed.

(** The exchange of bands made for DDS loses nothing: it keeps the number
    of rows, of pixels per row and of bands per pixel, and exchanging the
    bands of the array handed to the encoder once more gives back the
    array of the RGB image. *)
Theorem dds_swap_round_trip (img : image) (output_filename : string) :
  exists img_bgra,
    request img "dds" output_filename
    = IioImwrite output_filename img_bgra (Some ".dds")
    /\ index_last [2; 1; 0]%nat img_bgra = np_array (convert RGB img)
    /\ (forall h w,
          has_shape h w 3 (np_array (convert RGB img)) -> has_shape h w 3 img_bgra).
Proof.
  exists (index_last [2; 1; 0]%nat (np_array (convert RGB img))).
  split; [reflexivity|].
  split.
  - apply index_last_swap_twice, np_array_RGB_bands.
  - intros h w Hs.
    unfold index_last.
    apply (has_shape_map_px _ _ h w 3 3); [|exact Hs].
    intros px _. reflexivity.
Qed.

(** With encoders that raise instances of [Exception], the run makes
    these eleven requests, in this order: PIL saves under the names BMP,
    GIF, ICO, JPEG, TGA, TIFF, WEBP and PPM, imageio writes for dds (the
    exchanged array, forced extension) and pam (the array as decoded),
    and the QOI encoder on the RGBA array. *)
Theorem run_requests (img : image) (codec : codec_call -> outcome) :
  raises_only_Exception codec ->
  calls (fst (run img codec))
  = [ PilSave "./bmp.bmp" img "BMP";
      IioImwrite "./dds.dds"
        (index_last [2; 1; 0]%nat (np_array (convert RGB img))) (Some ".dds");
      PilSave "./gif.gif" img "GIF";
      PilSave "./ico.ico" (convert RGBA img) "ICO";
      PilSave "./jpg.jpg" img "JPEG";
      QoiWrite "./qoi.qoi" (np_array (convert RGBA img));
      PilSave "./tga.tga" img "TGA";
      PilSave "./tif.tif" img "TIFF";
      PilSave "./webp.webp" img "WEBP";
      IioImwrite "./pam.pam" (np_array img) None;
      PilSave "./ppm.ppm" img "PPM" ].
Proof.
  intros Hcodec.
  unfold run.
  destruct (export_loop_complete img codec Hcodec formats) as [_ ->].
  reflexivity.
Qed.

Lemma run_requests_witness :
  calls (fst (run example_img gif_fails))
  = [ PilSave "./bmp.bmp" example_img "BMP";
      IioImwrite "./dds.dds"
        (index_last [2; 1; 0]%nat (np_array (convert RGB example_img))) (Some ".dds");
      PilSave "./gif.gif" example_img "GIF";
      PilSave "./ico.ico" (convert RGBA example_img) "ICO";
      PilSave "./jpg.jpg" example_img "JPEG";
      QoiWrite "./qoi.qoi" (np_array (convert RGBA example_img));
      PilSave "./tga.tga" example_img "TGA";
      PilSave "./tif.tif" example_img "TIFF";
      PilSave "./webp.webp" example_img "WEBP";
      IioImwrite "./pam.pam" (np_array example_img) None;
      PilSave "./ppm.ppm" example_img "PPM" ].
Proof.
  apply (run_requests example_img gif_fails).
  exact gif_fails_raises_only_Exception.
Defined.

Lemma has_shape_example_img : has_shape 1 2 3 (np_array (convert RGB example_img)).
Proof. split; [reflexivity|]. repeat constructor. Qed.

Lemma dds_swap_round_trip_witness :
  exists img_bgra,
    request example_img "dds" "./dds.dds"
    = IioImwrite "./dds.dds" img_bgra (Some ".dds")
    /\ index_last [2; 1; 0]%nat img_bgra = np_array (convert RGB example_img)
    /\ has_shape 1 2 3 img_bgra.
Proof.
  destruct (dds_swap_round_trip example_img "./dds.dds") as (arr & Hreq & Hback & Hs).
  exists arr.
  split; [exact Hreq|].
  split; [exact Hback|].
  apply Hs, has_shape_example_img.
Defined.

(** *** File names *)

Lemma append_nil_r (s : string) : s ++ "" = s.
Proof. induction s as [|c s IH]; simpl; [reflexivity|now rewrite IH]. Qed.

Lemma append_assoc (a b c : string) : (a ++ b) ++ c = a ++ (b ++ c).
Proof. induction a as [|x a IH]; simpl; [reflexivity|now rewrite IH]. Qed.

Lemma extension_from_dot (a ext : string) (seen : bool) (acc : string) :
  extension_from seen acc (a ++ String "." ext) = extension_from true "" ext.
Proof.
  revert seen acc.
  induction a as [|c a IH]; intros seen acc; simpl; [reflexivity|].
  destruct (Ascii.eqb c "."); apply IH.
Qed.

Lemma extension_from_no_dot (ext acc : string) :
  contains "." ext = false -> extension_from true acc ext = acc ++ ext.
Proof.
  revert acc.
  induction ext as [|c ext IH]; intros acc Hdot; simpl.
  - now rewrite append_nil_r.
  - simpl in Hdot.
    apply Bool.orb_false_iff in Hdot as [Hc Hrest].
    rewrite Hc, (IH _ Hrest), append_assoc.
    reflexivity.
Qed.

(** The file name of a key: [./key.key], or [key.key] alone when the key
    starts with a slash, because [os.path.join] drops the directory in
    front of an absolute path; for a key without a dot the extension of
    the file name is the key. *)
Theorem output_filename_of_key (ext : string) :
  (startswith_slash ext = false -> output_filename_of ext = "./" ++ ext ++ "." ++ ext)
  /\ (startswith_slash ext = true -> output_filename_of ext = ext ++ "." ++ ext)
  /\ (contains "." ext = false -> extension (output_filename_of ext) = ext).
Proof.
  assert (Hno : startswith_slash ext = false ->
                output_filename_of ext = "./" ++ ext ++ "." ++ ext).
  { intros H. unfold output_filename_of, os_path_join.
    destruct ext as [|c ext]; [reflexivity|].
    simpl in *. now rewrite H. }
  assert (Hyes : startswith_slash ext = true ->
                 output_filename_of ext = ext ++ "." ++ ext).
  { intros H. unfold output_filename_of, os_path_join.
    destruct ext as [|c ext]; [discriminate|].
    simpl in *. now rewrite H. }
  split; [exact Hno|].
  split; [exact Hyes|].
  intros Hdot.
  unfold extension.
  destruct (startswith_slash ext) eqn:Hs.
  - rewrite (Hyes eq_refl).
    change (ext ++ "." ++ ext) with (ext ++ String "." ext).
    now rewrite extension_from_dot, extension_from_no_dot.
  - rewrite (Hno eq_refl).
    change ("./" ++ ext ++ "." ++ ext) with ("./" ++ (ext ++ String "." ext)).
    rewrite <- append_assoc.
    now rewrite extension_from_dot, extension_from_no_dot.
Qed.

Lemma output_filename_of_key_witness :
  output_filename_of "webp" = "./" ++ "webp" ++ "." ++ "webp"
  /\ output_filename_of "/tmp/x" = "/tmp/x" ++ "." ++ "/tmp/x"
  /\ extension (output_filename_of "webp") = "webp".
Proof.
  split; [apply (proj1 (output_filename_of_key "webp")); reflexivity|].
  split; [apply (proj1 (proj2 (output_filename_of_key "/tmp/x"))); reflexivity|].
  apply (proj2 (proj2 (output_filename_of_key "webp"))); reflexivity.
Defined.

End LdrFormatsProofs.
